(** * Verification of the SPARTA data query system

    Shallow embedding of [sparta_extractor.py] (database construction,
    keyword search) and [sparta_semantic_search.py] (cosine ranking,
    embedding persistence, related techniques, query routing). *)

From Stdlib Require Import Bool Arith List ZArith Lia String Ascii.
From Stdlib Require Import Sorting.Permutation Sorting.Sorted.
From Stdlib Require Import Reals Lra.
Import ListNotations.

(** ** Python string primitives on ASCII text *)

Module Py.

(** [str.lower] restricted to ASCII: A-Z become a-z. *)
Definition ascii_lower (c : ascii) : ascii :=
  let n := nat_of_ascii c in
  if (65 <=? n) && (n <=? 90) then ascii_of_nat (n + 32) else c.

Fixpoint lower (s : string) : string :=
  match s with
  | EmptyString => EmptyString
  | String c r => String (ascii_lower c) (lower r)
  end.

(** [str.isspace] on ASCII: space, \t \n \v \f \r and \x1c-\x1f. *)
Definition is_space (c : ascii) : bool :=
  let n := nat_of_ascii c in
  (n =? 32) || ((9 <=? n) && (n <=? 13)) || ((28 <=? n) && (n <=? 31)).

(** [str.split()] with no separator: maximal runs of non-space characters.
    [split_go s] returns the word [s] starts with and the words after it. *)
Fixpoint split_go (s : string) : string * list string :=
  match s with
  | EmptyString => (EmptyString, [])
  | String c r =>
      let (w, ws) := split_go r in
      if is_space c
      then (EmptyString, if String.eqb w EmptyString then ws else w :: ws)
      else (String c w, ws)
  end.

Definition split (s : string) : list string :=
  let (w, ws) := split_go s in
  if String.eqb w EmptyString then ws else w :: ws.

(** [needle in hay] for strings. *)
Fixpoint contains (needle hay : string) : bool :=
  String.prefix needle hay ||
  match hay with
  | EmptyString => false
  | String _ r => contains needle r
  end.

(** [set(xs)]: the distinct elements (iteration order is irrelevant to
    every use below). *)
Definition set_of (l : list string) : list string := nodup string_dec l.

(** [a & b] on sets. *)
Definition set_inter (a b : list string) : list string :=
  filter (fun w => existsb (String.eqb w) b) a.

(** [xs[:k]] for an int [k]. *)
Definition take {A} (k : Z) (l : list A) : list A :=
  if (0 <=? k)%Z then firstn (Z.to_nat k) l
  else firstn (Z.to_nat (Z.of_nat (List.length l) + k)) l.

(** [xs[1:]]. *)
Definition drop1 {A} (l : list A) : list A := tl l.

End Py.

(** ** Database entries ([build_database] dictionaries) *)

Inductive entry_type := technique | sub_technique.

Record entry := mk_entry {
  type : entry_type;
  id : string;
  name : string;
  description : string;
  tactic : string;
  tactic_id : string;
  tactic_description : string;
  parent_id : option string;
  parent_name : option string;
  full_text : string
}.

(** ** Keyword search ([search_techniques]) *)

Module Keyword.
Import Py.
Open Scope Z_scope.

(** The per-entry body of the loop of [search_techniques]. *)
Definition score (query : string) (e : entry) : Z :=
  let query_lower := lower query in
  let query_words := set_of (split query_lower) in
  let full_text_lower := lower (full_text e) in
  let score0 := 0 in
  let score1 := if contains query_lower (lower (name e)) then score0 + 100 else score0 in
  let score2 := if contains query_lower (lower (description e)) then score1 + 50 else score1 in
  let entry_words := set_of (split full_text_lower) in
  let overlap := set_inter query_words entry_words in
  let score3 := score2 + Z.of_nat (List.length overlap) * 10 in
  fold_left (fun s word => if contains word full_text_lower then s + 5 else s)
    query_words score3.

(** [list.sort(key=..., reverse=True)]: Python's sort is stable, also with
    [reverse=True]; this insertion sort places each element after every
    element already placed whose key is not smaller. *)
Fixpoint insert_desc {A} (x : Z * A) (l : list (Z * A)) : list (Z * A) :=
  match l with
  | [] => [x]
  | y :: r => if fst y <? fst x then x :: l else y :: insert_desc x r
  end.

Definition sort_desc {A} (l : list (Z * A)) : list (Z * A) :=
  fold_left (fun acc x => insert_desc x acc) l [].

Definition scored_results (database : list entry) (query : string) : list (Z * entry) :=
  fold_left (fun acc e =>
      let s := score query e in
      if 0 <? s then acc ++ [(s, e)] else acc) database [].

Definition search_techniques (database : list entry) (query : string) (top_k : Z)
  : list entry :=
  map snd (take top_k (sort_desc (scored_results database query))).

(** The policy of the specification, written as a sum of independent
    contributions over the distinct query words. *)
Definition score_spec (query : string) (e : entry) : Z :=
  let q := lower query in
  let words := set_of (split q) in
  let text := lower (full_text e) in
  (if contains q (lower (name e)) then 100 else 0)
  + (if contains q (lower (description e)) then 50 else 0)
  + 10 * Z.of_nat (List.length
           (filter (fun w => if in_dec string_dec w (split text) then true else false) words))
  + 5 * Z.of_nat (List.length (filter (fun w => contains w text) words)).

End Keyword.


(** ** Semantic search ([SPARTASemanticSearch], [SPARTAQueryAgent]) *)

Module Semantic.
Import Py.
Open Scope R_scope.

(** numpy float64 values as they arise here: finite values, the two
    infinities and nan. Arithmetic is exact (no rounding). *)
Inductive npfloat := Fin (r : R) | PInf | NInf | NaN.

(** numpy division: [0/0] is nan and [x/0] is a signed infinity. *)
Definition fdiv (x y : R) : npfloat :=
  if Req_EM_T y 0 then
    if Req_EM_T x 0 then NaN else if Rlt_dec 0 x then PInf else NInf
  else Fin (x / y).

(** [np.dot] of a row and the query when both have the same length (the
    callers below check the shapes first, as [np.dot] does). *)
Fixpoint dot (u v : list R) : R :=
  match u, v with
  | a :: u', b :: v' => a * b + dot u' v'
  | _, _ => 0
  end.

Fixpoint sumsq (u : list R) : R :=
  match u with
  | [] => 0
  | a :: r => a * a + sumsq r
  end.

(** [np.linalg.norm]. *)
Definition norm (u : list R) : R := sqrt (sumsq u).

(** One component of
    [np.dot(E, q) / (np.linalg.norm(E, axis=1) * np.linalg.norm(q))]. *)
Definition cosine (row q : list R) : npfloat := fdiv (dot row q) (norm row * norm q).

Definition similarities (embs : list (list R)) (q : list R) : list npfloat :=
  map (fun row => cosine row q) embs.

(** numpy's sort order on float64: nan after everything. *)
Definition fl_rank (x : npfloat) : nat :=
  match x with NInf => 0 | Fin _ => 1 | PInf => 2 | NaN => 3 end%nat.

Definition fl_ltb (x y : npfloat) : bool :=
  match x, y with
  | Fin a, Fin b => if Rlt_dec a b then true else false
  | _, _ => Nat.ltb (fl_rank x) (fl_rank y)
  end.

(** Python [float >= float]; false as soon as one side is nan. *)
Definition fl_geb (x : npfloat) (m : R) : bool :=
  match x with
  | Fin a => if Rle_dec m a then true else false
  | PInf => true
  | NInf | NaN => false
  end.

(** [np.argsort(similarities)]: indices in ascending order of the values.
    numpy's default kind (quicksort, an introsort whose partitions of at
    most [SMALL_QUICKSORT + 1 = 16] elements are finished by insertion
    sort) sorts an array of up to 16 elements by straight insertion sort
    alone, which keeps equal values in index order; [ins_argsort] is that
    sort. This is numpy's generic path, the one the code takes where
    argsort is not dispatched to a vectorised sort. *)
Fixpoint ins_idx (key : nat -> npfloat) (i : nat) (l : list nat) : list nat :=
  match l with
  | [] => [i]
  | j :: r => if fl_ltb (key i) (key j) then i :: l else j :: ins_idx key i r
  end.

Definition ins_argsort (sims : list npfloat) : list nat :=
  fold_left (fun acc i => ins_idx (fun k => nth k sims NaN) i acc)
    (seq 0 (List.length sims)) [].

(** Longer arrays are partitioned first (median of three, or heapsort past
    the depth limit), which does not keep equal values in index order; that
    sort is the parameter [argsort_large], about which nothing is assumed
    here. *)
Definition argsort (argsort_large : list npfloat -> list nat) (sims : list npfloat)
  : list nat :=
  if (List.length sims <=? 16)%nat then ins_argsort sims else argsort_large sims.

(** [top_indices = np.argsort(similarities)[::-1][:top_k]] followed by the
    [score >= min_score] test of the result loop. *)
Definition top_indices (argsort_large : list npfloat -> list nat)
  (sims : list npfloat) (top_k : Z) : list nat :=
  take top_k (rev (argsort argsort_large sims)).

Definition rank_indices (argsort_large : list npfloat -> list nat)
  (sims : list npfloat) (top_k : Z) (min_score : R) : list nat :=
  filter (fun i => fl_geb (nth i sims NaN) min_score)
    (top_indices argsort_large sims top_k).

(** [self.database[idx]] for each kept index; [None] is an IndexError. *)
Fixpoint lookup_all (db : list entry) (sims : list npfloat) (idxs : list nat)
  : option (list (entry * npfloat)) :=
  match idxs with
  | [] => Some []
  | i :: r =>
      match nth_error db i, lookup_all db sims r with
      | Some e, Some rs => Some ((e, nth i sims NaN) :: rs)
      | _, _ => None
      end
  end.

(** The text embedded for an entry by [create_embeddings]. *)
Definition type_text (t : entry_type) : string :=
  match t with technique => "technique" | sub_technique => "sub technique" end.

Definition rich_text (e : entry) : string :=
  let parts := [("Technique: " ++ name e)%string;
                ("Description: " ++ description e)%string;
                ("Tactic: " ++ tactic e)%string;
                ("Category: " ++ type_text (type e))%string] in
  let parts := match parent_name e with
               | Some p => if String.eqb p "" then parts
                           else (parts ++ [("Parent: " ++ p)%string])%list
               | None => parts
               end in
  String.concat ". " parts.

(** The pickled index file: [{'embeddings': ..., 'model_name': ...}]. *)
Record persisted := mk_persisted {
  p_embeddings : option (list (list R));
  p_model_name : string
}.

(** The attributes of a [SPARTASemanticSearch] object together with the
    files it reads and writes and a count of the [model.encode] calls. *)
Record engine := mk_engine {
  model_name : string;
  model_loaded : bool;
  database : option (list entry);
  embeddings : option (list (list R));
  index_file : option persisted;
  db_file : list entry;
  encode_calls : nat
}.

Definition set_model_loaded (st : engine) : engine :=
  mk_engine (model_name st) true (database st) (embeddings st) (index_file st)
    (db_file st) (encode_calls st).
Definition set_database (d : option (list entry)) (st : engine) : engine :=
  mk_engine (model_name st) (model_loaded st) d (embeddings st) (index_file st)
    (db_file st) (encode_calls st).
Definition set_embeddings (x : option (list (list R))) (st : engine) : engine :=
  mk_engine (model_name st) (model_loaded st) (database st) x (index_file st)
    (db_file st) (encode_calls st).
Definition set_index_file (f : option persisted) (st : engine) : engine :=
  mk_engine (model_name st) (model_loaded st) (database st) (embeddings st) f
    (db_file st) (encode_calls st).
Definition bump_calls (st : engine) : engine :=
  mk_engine (model_name st) (model_loaded st) (database st) (embeddings st)
    (index_file st) (db_file st) (S (encode_calls st)).

(** Methods run in a state and exception monad over [engine]. *)
Inductive exc := ImportError | TypeError | IndexError | ValueError.

Definition M (A : Type) : Type := engine -> (exc + A) * engine.

Definition ret {A} (a : A) : M A := fun st => (inr a, st).
Definition bind {A B} (m : M A) (f : A -> M B) : M B :=
  fun st => match m st with
            | (inl e, st') => (inl e, st')
            | (inr a, st') => f a st'
            end.
Definition raise {A} (e : exc) : M A := fun st => (inl e, st).
Definition get : M engine := fun st => (inr st, st).
Definition modify (f : engine -> engine) : M unit := fun st => (inr tt, f st).

Notation "x <- m ;; k" := (bind m (fun x => k)) (at level 61, m at next level, right associativity).
Notation "m ;;; k" := (bind m (fun _ => k)) (at level 61, right associativity).

(** The record list a method sees after its [if self.database is None:
    self.load_database()] prologue, and the state after that prologue. *)
Definition current_store (st : engine) : list entry :=
  match database st with Some d => d | None => db_file st end.

Definition with_store (st : engine) : engine :=
  match database st with Some _ => st | None => set_database (Some (db_file st)) st end.

Section Engine.

(** [SENTENCE_TRANSFORMERS_AVAILABLE]. *)
Variable available : bool.
(** [SentenceTransformer(model_name).encode] on one text. *)
Variable encode : string -> string -> list R.
(** numpy's [argsort] on arrays of more than 16 elements. *)
Variable argsort_large : list npfloat -> list nat.

(** The model named [model_name] is taken to load: a failure of
    [SentenceTransformer(model_name)] itself (unknown name, no network) is
    not modelled. *)
Definition load_model : M unit :=
  if available then modify set_model_loaded else raise ImportError.

(** The file ["sparta_database.json"] is taken to exist and to hold a valid
    JSON list of records, [db_file]; [FileNotFoundError] and
    [json.JSONDecodeError] are not modelled. *)
Definition load_database : M unit :=
  st <- get ;; modify (set_database (Some (db_file st))).

(** Whether [np.dot(self.embeddings, query_embedding)] and the norms along
    [axis=1] are defined: a 2-D array whose rows have the query's length.
    An empty array is the 1-D result of [encode([])], on which [np.dot]
    raises ValueError (or, for an empty query, [np.linalg.norm] with
    [axis=1] raises AxisError, itself a ValueError). *)
Definition dims_ok (embs : list (list R)) (q : list R) : bool :=
  match embs with
  | [] => false
  | _ => forallb (fun row => Nat.eqb (List.length row) (List.length q)) embs
  end.

Definition create_embeddings : M unit :=
  st <- get ;;
  (if model_loaded st then ret tt else load_model) ;;;
  st <- get ;;
  (match database st with None => load_database | Some _ => ret tt end) ;;;
  st <- get ;;
  let db := match database st with Some d => d | None => [] end in
  modify (fun st => bump_calls
    (set_embeddings (Some (map (encode (model_name st)) (map rich_text db))) st)) ;;;
  (* the report line reads [self.embeddings.shape[1]]: IndexError on the
     1-D array that [encode([])] gives *)
  match db with [] => raise IndexError | _ => ret tt end.

Definition save_embeddings : M unit :=
  st <- get ;;
  modify (set_index_file (Some (mk_persisted (embeddings st) (model_name st)))).

Definition load_embeddings : M bool :=
  st <- get ;;
  match index_file st with
  | Some data => modify (set_embeddings (p_embeddings data)) ;;; ret true
  | None => ret false
  end.

Definition search (query : string) (top_k : Z) (min_score : R)
  : M (list (entry * npfloat)) :=
  st <- get ;;
  (if model_loaded st then ret tt else load_model) ;;;
  st <- get ;;
  (match embeddings st with
   | Some _ => ret tt
   | None => ok <- load_embeddings ;;
             if ok then ret tt else (create_embeddings ;;; save_embeddings)
   end) ;;;
  st <- get ;;
  let query_embedding := encode (model_name st) query in
  modify bump_calls ;;;
  match embeddings st with
  | None => raise TypeError
  | Some embs =>
      if negb (dims_ok embs query_embedding) then raise ValueError else
      let sims := similarities embs query_embedding in
      let idxs := rank_indices argsort_large sims top_k min_score in
      match database st with
      | None => match idxs with [] => ret [] | _ => raise TypeError end
      | Some db =>
          match lookup_all db sims idxs with
          | Some rs => ret rs
          | None => raise IndexError
          end
      end
  end.

Definition search_by_tactic (tactic_name : string) : M (list entry) :=
  st <- get ;;
  (match database st with None => load_database | Some _ => ret tt end) ;;;
  st <- get ;;
  let db := match database st with Some d => d | None => [] end in
  let tactic_lower := lower tactic_name in
  ret (filter (fun e => contains tactic_lower (lower (tactic e))) db).

Definition get_related_techniques (technique_id : string) (top_k : Z)
  : M (list (entry * npfloat)) :=
  st <- get ;;
  (match database st with None => load_database | Some _ => ret tt end) ;;;
  st <- get ;;
  let db := match database st with Some d => d | None => [] end in
  match find (fun e => String.eqb (id e) technique_id) db with
  | None => ret []
  | Some found =>
      r <- search (description found) (top_k + 1) 0 ;;
      ret (drop1 r)
  end.

(** [SPARTAQueryAgent.answer_query], up to the final rendering: the
    answer carries what is handed to [_format_tactic_response] or to
    [_format_search_response]. *)
Definition tactic_keywords : list (string * string) :=
  [("reconnaissance", "Reconnaissance");
   ("resource development", "Resource Development");
   ("initial access", "Initial Access");
   ("execution", "Execution");
   ("persistence", "Persistence");
   ("defense evasion", "Defense Evasion");
   ("lateral movement", "Lateral Movement");
   ("exfiltration", "Exfiltration");
   ("impact", "Impact")]%string.

Inductive answer :=
| TacticAnswer (tactic_name : string) (techniques : list entry)
| SearchAnswer (query : string) (results : list (entry * npfloat)).

Definition answer_query (query : string) : M answer :=
  let query_lower := lower query in
  match find (fun kv => contains (fst kv) query_lower) tactic_keywords with
  | Some (_, tac) =>
      techniques <- search_by_tactic tac ;; ret (TacticAnswer tac techniques)
  | None =>
      results <- search query 5 (3 / 10) ;; ret (SearchAnswer query results)
  end.

End Engine.

End Semantic.

(** ** Database construction ([TACTICS], [SPARTA_DATA], [build_database]) *)

Module Build.

Record tactic_info := mk_tactic {
  t_id : string;
  t_name : string;
  t_description : string
}.

Record sub_info := mk_sub {
  sub_id : string;
  sub_name : string;
  sub_description : string
}.

(** A technique dictionary; a missing ["sub_techniques"] key reads as [[]]
    through [technique.get("sub_techniques", [])]. *)
Record technique_info := mk_technique {
  tech_id : string;
  tech_name : string;
  tech_description : string;
  sub_techniques : list sub_info
}.

(** [SPARTA_DATA]: tactic id -> its ["techniques"] list, a dictionary. *)
Definition sparta_data := list (string * list technique_info).

(** [tactic_id in SPARTA_DATA] together with [SPARTA_DATA[tactic_id]]. *)
Fixpoint lookup (k : string) (data : sparta_data) : option (list technique_info) :=
  match data with
  | [] => None
  | (k', v) :: r => if String.eqb k k' then Some v else lookup k r
  end.

Definition technique_entry (t : tactic_info) (tech : technique_info) : entry :=
  mk_entry technique (tech_id tech) (tech_name tech) (tech_description tech)
    (t_name t) (t_id t) (t_description t) None None
    (tech_name tech ++ " " ++ tech_description tech ++ " " ++ t_name t).

Definition sub_entry (t : tactic_info) (tech : technique_info) (sub : sub_info) : entry :=
  mk_entry sub_technique (sub_id sub) (sub_name sub) (sub_description sub)
    (t_name t) (t_id t) (t_description t)
    (Some (tech_id tech)) (Some (tech_name tech))
    (sub_name sub ++ " " ++ sub_description sub ++ " " ++ tech_name tech ++ " " ++ t_name t).

(** The nested loops of [build_database], appending to [database]. *)
Definition build_database (tactics : list tactic_info) (data : sparta_data) : list entry :=
  fold_left (fun database t =>
      match lookup (t_id t) data with
      | Some techniques =>
          fold_left (fun database tech =>
              fold_left (fun database sub => (database ++ [sub_entry t tech sub])%list)
                (sub_techniques tech)
                (database ++ [technique_entry t tech])%list)
            techniques database
      | None => database
      end)
    tactics [].

(** The order the specification describes: tactics in declared order, each
    technique followed at once by its sub-techniques. *)
Definition tactic_records (t : tactic_info) (techniques : list technique_info) : list entry :=
  flat_map (fun tech => technique_entry t tech :: map (sub_entry t tech) (sub_techniques tech))
    techniques.

Definition build_spec (tactics : list tactic_info) (data : sparta_data) : list entry :=
  flat_map (fun t => match lookup (t_id t) data with
                     | Some techniques => tactic_records t techniques
                     | None => []
                     end) tactics.

Definition count_techniques (data : sparta_data) : nat :=
  fold_right (fun kv n => List.length (snd kv) + n) 0 data.

Definition count_sub_techniques (data : sparta_data) : nat :=
  fold_right (fun kv n =>
      fold_right (fun tech m => List.length (sub_techniques tech) + m) 0 (snd kv) + n)
    0 data.

End Build.

(** ** Database statistics ([get_statistics]) *)

Module Stats.

(** The per-tactic dictionary [{"techniques": n, "sub_techniques": m}]. *)
Record tactic_counts := mk_counts {
  c_techniques : nat;
  c_sub_techniques : nat
}.

Record statistics := mk_stats {
  total_entries : nat;
  techniques : nat;
  sub_techniques : nat;
  tactics : list (string * tactic_counts)
}.

Definition type_eqb (a b : entry_type) : bool :=
  match a, b with
  | technique, technique | sub_technique, sub_technique => true
  | _, _ => false
  end.

(** [sum(1 for e in database if e["type"] == t)]. *)
Definition count_type (t : entry_type) (database : list entry) : nat :=
  List.length (filter (fun e => type_eqb (type e) t) database).

(** A dictionary with string keys, in insertion order. *)
Definition dict := list (string * tactic_counts).

Fixpoint dict_get (k : string) (d : dict) : option tactic_counts :=
  match d with
  | [] => None
  | (k', v) :: r => if String.eqb k' k then Some v else dict_get k r
  end.

Definition dict_mem (k : string) (d : dict) : bool :=
  existsb (fun kv => String.eqb (fst kv) k) d.

Definition dict_update (k : string) (f : tactic_counts -> tactic_counts) (d : dict) : dict :=
  map (fun kv => if String.eqb (fst kv) k then (fst kv, f (snd kv)) else kv) d.

(** [counts[entry["type"] + "s"] = counts.get(entry["type"] + "s", 0) + 1]:
    the key is ["techniques"] or ["sub_techniques"], both present. *)
Definition incr (t : entry_type) (c : tactic_counts) : tactic_counts :=
  match t with
  | technique => mk_counts (S (c_techniques c)) (c_sub_techniques c)
  | sub_technique => mk_counts (c_techniques c) (S (c_sub_techniques c))
  end.

(** One iteration of the [for entry in database] loop. *)
Definition tactic_step (d : dict) (e : entry) : dict :=
  let tactic := tactic e in
  let d := if dict_mem tactic d then d else (d ++ [(tactic, mk_counts 0 0)])%list in
  dict_update tactic (incr (type e)) d.

Definition get_statistics (database : list entry) : statistics :=
  mk_stats (List.length database)
    (count_type technique database)
    (count_type sub_technique database)
    (fold_left tactic_step database []).

End Stats.

(** ** Tactic answers ([SPARTAQueryAgent._format_tactic_response]) *)

Module Format.
Open Scope string_scope.

(** [str(n)] for a natural number. *)
Fixpoint digits (fuel n : nat) : string :=
  match fuel with
  | O => ""
  | S f =>
      let d := String (ascii_of_nat (48 + n mod 10)) "" in
      if (n / 10 =? 0)%nat then d else digits f (n / 10) ++ d
  end.

Definition str_nat (n : nat) : string := digits (S n) n.

Definition nl : string := String (ascii_of_nat 10) "".

Definition is_main (e : entry) : bool :=
  match type e with technique => true | sub_technique => false end.

Definition is_sub (e : entry) : bool :=
  match type e with sub_technique => true | technique => false end.

(** [s.get('parent_id') == tech['id']]; [None] equals no string. *)
Definition parent_is (s : entry) (tid : string) : bool :=
  match parent_id s with Some p => String.eqb p tid | None => false end.

(** The lines of the [response] list, before ["\n".join]. *)
Definition format_tactic_lines (tactic : string) (techniques : list entry) : list string :=
  let main_techniques := filter is_main techniques in
  let sub_techniques := filter is_sub techniques in
  app [nl ++ "### " ++ tactic ++ " Tactic" ++ nl;
       "Found " ++ str_nat (List.length main_techniques) ++ " techniques and "
         ++ str_nat (List.length sub_techniques) ++ " sub-techniques." ++ nl]
    (flat_map (fun tech =>
        let subs := filter (fun s => parent_is s (id tech)) sub_techniques in
        app [nl ++ "**" ++ id tech ++ ": " ++ name tech ++ "**";
             "  " ++ substring 0 200 (description tech) ++ "..."]
          (match subs with
           | [] => []
           | _ => "  Sub-techniques:" :: map (fun sub => "    - " ++ id sub ++ ": " ++ name sub) subs
           end)) main_techniques).

Definition format_tactic_response (tactic : string) (techniques : list entry) : string :=
  String.concat nl (format_tactic_lines tactic techniques).

End Format.

(** ** Engine setup ([setup_and_test], [interactive_mode]) *)

Module Setup.
Import Semantic.

Section Setup.

Variable available : bool.
Variable encode : string -> string -> list R.

(** [search_engine.load_database(...)], then, under
    [SENTENCE_TRANSFORMERS_AVAILABLE], [load_model()] and [if not
    load_embeddings(): create_embeddings(); save_embeddings()]. *)
Definition setup_engine : M unit :=
  load_database ;;;
  load_model available ;;;
  ok <- load_embeddings ;;
  if ok then ret tt else (create_embeddings available encode ;;; save_embeddings).

End Setup.

End Setup.

(** ** Concrete inputs used by the witnesses and counterexamples *)

Module Examples.
Import Semantic Build.
Open Scope string_scope.

Definition rec_a : entry :=
  mk_entry technique "REC-0001" "Gather Spacecraft Design Information"
    "Threat actors may gather information about the victim spacecraft's design."
    "Reconnaissance" "ST0001" "Gathering information to plan future operations." None None
    "Gather Spacecraft Design Information Threat actors may gather information about the victim spacecraft's design. Reconnaissance".

Definition rec_b : entry :=
  mk_entry technique "REC-0002" "Gather Spacecraft Descriptors"
    "Threat actors may gather information about the victim spacecraft's descriptors."
    "Reconnaissance" "ST0001" "Gathering information to plan future operations." None None
    "Gather Spacecraft Descriptors Threat actors may gather information about the victim spacecraft's descriptors. Reconnaissance".

Definition store_ab : list entry := [rec_a; rec_b].

(** An embedding model that maps the description of [rec_a] and the
    embedded text of [rec_b] to one direction and every other text to an
    orthogonal one. *)
Definition enc_ab (model text : string) : list R :=
  if String.eqb text (description rec_a) || String.eqb text (rich_text rec_b)
  then [1; 0]%R else [0; 1]%R.

(** An embedding model that maps every text to the same vector. *)
Definition enc_one (model text : string) : list R := [1]%R.

(** A fresh engine: nothing loaded, no index file, [store_ab] on disk. *)
Definition engine_fresh : engine :=
  mk_engine "all-MiniLM-L6-v2" false None None None store_ab 0.

(** An engine configured for one model whose index file was written by
    another. *)
Definition engine_stale : engine :=
  mk_engine "all-mpnet-base-v2" false None None
    (Some (mk_persisted (Some [[1]; [1]]%R) "all-MiniLM-L6-v2")) store_ab 0.

Definition tac_recon : tactic_info :=
  mk_tactic "ST0001" "Reconnaissance" "Gathering information to plan future operations.".

Definition tech_recon : technique_info :=
  mk_technique "REC-0001" "Gather Spacecraft Design Information"
    "Threat actors may gather information about the victim spacecraft's design." [].

Definition tech_exfil : technique_info :=
  mk_technique "EXF-0001" "Replay"
    "Threat actors may replay captured commands." [].

(** Technique data with a key, ["ST0009"], missing from the tactic list. *)
Definition data_unlisted : sparta_data :=
  [("ST0001", [tech_recon]); ("ST0009", [tech_exfil])].

Definition tac_execution : tactic_info :=
  mk_tactic "ST0005" "Execution" "Trying to run malicious code on the spacecraft.".

(** A technique with two sub-techniques. *)
Definition sub_uplink : sub_info :=
  mk_sub "EX-0016.01" "Uplink Jamming" "Threat actors may jam the spacecraft uplink.".

Definition sub_downlink : sub_info :=
  mk_sub "EX-0016.02" "Downlink Jamming" "Threat actors may jam the spacecraft downlink.".

Definition tech_jam : technique_info :=
  mk_technique "EX-0016" "Jamming"
    "Threat actors may interfere with the spacecraft communications."
    [sub_uplink; sub_downlink].

Definition data_jam : sparta_data := [("ST0005", [tech_jam])].

(** A tactic with no techniques keyed under its id. *)
Definition tac_lateral : tactic_info :=
  mk_tactic "ST0007" "Lateral Movement" "Trying to move through the space system environment.".

(** A tactic list in which an id without techniques is listed twice, and
    technique data with a sub-technique level. *)
Definition tactics_dup : list tactic_info := [tac_recon; tac_lateral; tac_execution; tac_lateral].

Definition data_two : sparta_data := [("ST0001", [tech_recon]); ("ST0005", [tech_jam])].

End Examples.

(** * Proofs *)

(** ** Keyword scoring and ranking *)

Module KeywordProofs.
Import Py Keyword.
Open Scope Z_scope.

Lemma fold_bonus (c : string -> bool) (ws : list string) (s0 : Z) :
  fold_left (fun s w => if c w then s + 5 else s) ws s0
  = s0 + 5 * Z.of_nat (List.length (filter c ws)).
Proof.
  revert s0; induction ws as [|w ws IH]; intros s0; cbn [fold_left filter].
  - cbn [List.length]; lia.
  - rewrite IH. destruct (c w); cbn [List.length]; rewrite ?Nat2Z.inj_succ; lia.
Qed.

Lemma existsb_set_of (w : string) (ws : list string) :
  existsb (String.eqb w) (set_of ws)
  = if in_dec string_dec w ws then true else false.
Proof.
  destruct (in_dec string_dec w ws) as [Hin|Hin].
  - apply existsb_exists. exists w. split.
    + unfold set_of. apply nodup_In. exact Hin.
    + apply String.eqb_refl.
  - destruct (existsb (String.eqb w) (set_of ws)) eqn:E; [|reflexivity].
    apply existsb_exists in E. destruct E as [w' [Hw' Heq]].
    apply String.eqb_eq in Heq. subst w'.
    unfold set_of in Hw'. apply nodup_In in Hw'. contradiction.
Qed.

Lemma overlap_length (qw ws : list string) :
  List.length (set_inter qw (set_of ws))
  = List.length (filter (fun w => if in_dec string_dec w ws then true else false) qw).
Proof.
  unfold set_inter. f_equal. apply filter_ext. intros w. apply existsb_set_of.
Qed.

Lemma score_eq_spec (query : string) (e : entry) : score query e = score_spec query e.
Proof.
  unfold score, score_spec; cbv zeta. rewrite fold_bonus, overlap_length.
  destruct (contains (lower query) (lower (name e)));
    destruct (contains (lower query) (lower (description e))); lia.
Qed.


Lemma score_nonneg (query : string) (e : entry) : 0 <= score query e.
Proof.
  rewrite score_eq_spec. unfold score_spec; cbv zeta.
  destruct (contains (lower query) (lower (name e)));
    destruct (contains (lower query) (lower (description e))); lia.
Qed.

(** Stable descending insertion sort on scored pairs. *)
Section SortDesc.
Context {A : Type}.

Definition key_ge (a b : Z * A) : Prop := fst b <= fst a.
Definition same_key (s : Z) (p : Z * A) : bool := Z.eqb (fst p) s.

Lemma insert_desc_perm (x : Z * A) (l : list (Z * A)) :
  Permutation (insert_desc x l) (x :: l).
Proof.
  induction l as [|y r IH]; cbn [insert_desc]; [auto|].
  destruct (fst y <? fst x); [auto|].
  eapply perm_trans; [apply perm_skip, IH | apply perm_swap].
Qed.

Lemma insert_desc_sorted (x : Z * A) (l : list (Z * A)) :
  StronglySorted key_ge l -> StronglySorted key_ge (insert_desc x l).
Proof.
  induction 1 as [|y r Hr IH Hall]; cbn [insert_desc].
  - repeat constructor.
  - destruct (fst y <? fst x) eqn:E.
    + apply Z.ltb_lt in E. constructor; [constructor; assumption|].
      constructor; [unfold key_ge; lia|].
      eapply Forall_impl; [|exact Hall]. unfold key_ge; intros z Hz; lia.
    + apply Z.ltb_ge in E. constructor; [assumption|].
      eapply Permutation_Forall; [apply Permutation_sym, insert_desc_perm|].
      constructor; [unfold key_ge; lia | exact Hall].
Qed.

Lemma filter_same_key_nil (s : Z) (l : list (Z * A)) :
  Forall (fun z => fst z < s) l -> filter (same_key s) l = [].
Proof.
  induction 1 as [|z r Hz _ IH]; cbn [filter]; [reflexivity|].
  unfold same_key at 1. destruct (Z.eqb_spec (fst z) s); [lia | exact IH].
Qed.

Lemma insert_desc_stable (x : Z * A) (l : list (Z * A)) (s : Z) :
  StronglySorted key_ge l ->
  filter (same_key s) (insert_desc x l) = filter (same_key s) l ++ filter (same_key s) [x].
Proof.
  induction 1 as [|y r Hr IH Hall]; cbn [insert_desc]; [reflexivity|].
  destruct (fst y <? fst x) eqn:E.
  - apply Z.ltb_lt in E.
    change (filter (same_key s) (x :: y :: r)) with
      (if same_key s x then x :: filter (same_key s) (y :: r)
       else filter (same_key s) (y :: r)).
    change (filter (same_key s) [x]) with (if same_key s x then [x] else []).
    destruct (same_key s x) eqn:Hx.
    + unfold same_key in Hx; apply Z.eqb_eq in Hx.
      rewrite filter_same_key_nil; [reflexivity|].
      constructor; [lia|]. eapply Forall_impl; [|exact Hall].
      unfold key_ge; intros z Hz; lia.
    + rewrite app_nil_r. reflexivity.
  - cbn [filter]. rewrite IH. destruct (same_key s y); reflexivity.
Qed.

Lemma fold_insert_props (l acc : list (Z * A)) :
  StronglySorted key_ge acc ->
  StronglySorted key_ge (fold_left (fun acc x => insert_desc x acc) l acc) /\
  Permutation (fold_left (fun acc x => insert_desc x acc) l acc) (acc ++ l) /\
  (forall s, filter (same_key s) (fold_left (fun acc x => insert_desc x acc) l acc)
             = filter (same_key s) (acc ++ l)).
Proof.
  revert acc; induction l as [|x l IH]; intros acc Hs; cbn [fold_left].
  - rewrite app_nil_r. auto.
  - destruct (IH (insert_desc x acc) (insert_desc_sorted x acc Hs)) as [H1 [H2 H3]].
    split; [exact H1|]. split.
    + eapply perm_trans; [exact H2|].
      replace (acc ++ x :: l) with ((acc ++ [x]) ++ l) by (rewrite <- app_assoc; reflexivity).
      apply Permutation_app_tail.
      eapply perm_trans; [apply insert_desc_perm | apply Permutation_cons_append].
    + intros s. rewrite H3, filter_app, insert_desc_stable by exact Hs.
      replace (acc ++ x :: l) with ((acc ++ [x]) ++ l) by (rewrite <- app_assoc; reflexivity).
      rewrite !filter_app. reflexivity.
Qed.

Lemma sort_desc_props (l : list (Z * A)) :
  StronglySorted key_ge (sort_desc l) /\ Permutation (sort_desc l) l /\
  (forall s, filter (same_key s) (sort_desc l) = filter (same_key s) l).
Proof. apply (fold_insert_props l []). constructor. Qed.

End SortDesc.


Lemma scored_results_eq (database : list entry) (query : string) :
  scored_results database query
  = map (fun e => (score query e, e)) (filter (fun e => 0 <? score query e) database).
Proof.
  unfold scored_results.
  enough (H : forall acc,
    fold_left (fun acc e => let s := score query e in
                 if 0 <? s then acc ++ [(s, e)] else acc) database acc
    = acc ++ map (fun e => (score query e, e)) (filter (fun e => 0 <? score query e) database))
    by apply H.
  induction database as [|e db IH]; intros acc; cbn [fold_left filter map].
  - rewrite app_nil_r; reflexivity.
  - destruct (0 <? score query e); rewrite IH; [rewrite <- app_assoc|]; reflexivity.
Qed.

Definition scored_ok (query : string) (p : Z * entry) : Prop := fst p = score query (snd p).

Lemma map_snd_sorted (query : string) (l : list (Z * entry)) :
  Forall (scored_ok query) l -> StronglySorted key_ge l ->
  StronglySorted (fun a b => score query b <= score query a) (map snd l).
Proof.
  intros Hok Hs; induction Hs as [|p r Hr IH Hall]; cbn [map]; constructor.
  - apply IH. inversion Hok; assumption.
  - inversion Hok as [|? ? Hp Hrest]; subst.
    apply Forall_map. rewrite Forall_forall in *. intros q Hq.
    specialize (Hall q Hq). unfold key_ge, scored_ok in *.
    rewrite <- Hp, <- (Hrest q Hq). exact Hall.
Qed.

Lemma map_snd_filter (query : string) (s : Z) (l : list (Z * entry)) :
  Forall (scored_ok query) l ->
  filter (fun e => score query e =? s) (map snd l) = map snd (filter (same_key s) l).
Proof.
  induction 1 as [|[z e] r Hp _ IH]; [reflexivity|].
  unfold scored_ok in Hp; cbn [fst snd] in Hp. cbn [map filter snd].
  unfold same_key at 1; cbn [fst]. rewrite Hp.
  destruct (score query e =? s); cbn [map]; rewrite IH; reflexivity.
Qed.

(** Claim C1: the keyword score of an entry is the sum of the four
    independent contributions (+100 query in the lowercased name, +50 query
    in the lowercased description, +10 per distinct query word among the
    words of the lowercased composite text, +5 per distinct query word that
    is a substring of it); it is a non-negative integer and depends only on
    the query and the entry's name, description and composite text. *)
Theorem keyword_score_policy (query : string) (e : entry) :
  score query e = score_spec query e /\ 0 <= score query e /\
  score query e
  = score query (mk_entry technique "" (name e) (description e) "" "" "" None None
                   (full_text e)).
Proof.
  split; [apply score_eq_spec|]. split; [apply score_nonneg|]. reflexivity.
Qed.

(** Claim C2: for [top_k >= 0] the keyword search returns the first [top_k]
    entries of a list [ranked] that holds exactly the entries of positive
    score, in non-increasing score order, entries of equal score in store
    order; no returned entry has score 0. *)
Theorem keyword_rank_stable_desc (database : list entry) (query : string) (top_k : Z)
  (Htop : 0 <= top_k) :
  exists ranked : list entry,
    search_techniques database query top_k = firstn (Z.to_nat top_k) ranked /\
    Permutation ranked (filter (fun e => 0 <? score query e) database) /\
    Sorted (fun a b => score query b <= score query a) ranked /\
    (forall s, filter (fun e => score query e =? s) ranked
               = filter (fun e => score query e =? s)
                   (filter (fun e => 0 <? score query e) database)) /\
    (forall e, In e (search_techniques database query top_k) -> 0 < score query e).
Proof.
  set (P := filter (fun e => 0 <? score query e) database).
  set (pairs := map (fun e => (score query e, e)) P).
  destruct (sort_desc_props pairs) as [Hs [Hp Hf]].
  assert (Hok : Forall (scored_ok query) pairs).
  { unfold pairs. apply Forall_map. apply Forall_forall. intros; reflexivity. }
  assert (Hok' : Forall (scored_ok query) (sort_desc pairs)).
  { eapply Permutation_Forall; [apply Permutation_sym, Hp | exact Hok]. }
  assert (Hsnd : map snd pairs = P).
  { unfold pairs. rewrite map_map. apply map_id. }
  assert (Hres : search_techniques database query top_k
                 = firstn (Z.to_nat top_k) (map snd (sort_desc pairs))).
  { unfold search_techniques, take. rewrite scored_results_eq.
    destruct (Z.leb_spec 0 top_k); [|lia]. rewrite firstn_map. reflexivity. }
  exists (map snd (sort_desc pairs)). split; [exact Hres|]. split; [|split; [|split]].
  - rewrite <- Hsnd. apply Permutation_map. exact Hp.
  - apply StronglySorted_Sorted. apply map_snd_sorted; assumption.
  - intros s. rewrite map_snd_filter by exact Hok'. rewrite Hf.
    rewrite <- (map_snd_filter query s pairs Hok). rewrite Hsnd. reflexivity.
  - intros e He. rewrite Hres in He.
    assert (Hfirst : forall n (l : list entry) x, In x (firstn n l) -> In x l).
    { intros n l x Hx. rewrite <- (firstn_skipn n l). apply in_or_app; left; exact Hx. }
    apply Hfirst in He.
    apply (Permutation_in _ (Permutation_map snd Hp)) in He. rewrite Hsnd in He.
    unfold P in He. apply filter_In in He. apply Z.ltb_lt. apply He.
Qed.

Lemma keyword_rank_stable_desc_witness :
  0 <= 1 /\
  exists ranked : list entry,
    search_techniques Examples.store_ab "spacecraft" 1 = firstn (Z.to_nat 1) ranked /\
    Permutation ranked (filter (fun e => 0 <? score "spacecraft" e) Examples.store_ab) /\
    Sorted (fun a b => score "spacecraft" b <= score "spacecraft" a) ranked /\
    (forall s, filter (fun e => score "spacecraft" e =? s) ranked
               = filter (fun e => score "spacecraft" e =? s)
                   (filter (fun e => 0 <? score "spacecraft" e) Examples.store_ab)) /\
    (forall e, In e (search_techniques Examples.store_ab "spacecraft" 1) ->
               0 < score "spacecraft" e).
Proof. split; [lia | apply keyword_rank_stable_desc; lia]. Defined.

End KeywordProofs.

(** ** Cosine similarity *)

Module CosineProofs.
Import Semantic.
Open Scope R_scope.

Lemma sumsq_nonneg (u : list R) : 0 <= sumsq u.
Proof.
  induction u as [|a u IH]; cbn [sumsq]; [lra|].
  pose proof (Rle_0_sqr a) as Ha. unfold Rsqr in Ha. lra.
Qed.

Lemma norm_nonneg (u : list R) : 0 <= norm u.
Proof. apply sqrt_pos. Qed.

Lemma sumsq_zero_dot_l (u v : list R) : sumsq u = 0 -> dot u v = 0.
Proof.
  revert v; induction u as [|a u IH]; intros v H; [reflexivity|].
  cbn [sumsq] in H. pose proof (sumsq_nonneg u). pose proof (Rle_0_sqr a) as Ha.
  unfold Rsqr in Ha.
  assert (Ha0 : a = 0) by nra.
  destruct v as [|b v]; [reflexivity|]. cbn [dot].
  rewrite IH by lra. subst a. ring.
Qed.

Lemma sumsq_zero_dot_r (u v : list R) : sumsq v = 0 -> dot u v = 0.
Proof.
  revert u; induction v as [|b v IH]; intros u H; [destruct u; reflexivity|].
  cbn [sumsq] in H. pose proof (sumsq_nonneg v). pose proof (Rle_0_sqr b) as Hb.
  unfold Rsqr in Hb.
  assert (Hb0 : b = 0) by nra.
  destruct u as [|a u]; [reflexivity|]. cbn [dot].
  rewrite IH by lra. subst b. ring.
Qed.

Lemma norm_zero_sumsq (u : list R) : norm u = 0 -> sumsq u = 0.
Proof.
  intros H. unfold norm in H. apply sqrt_eq_0; [apply sumsq_nonneg | exact H].
Qed.

Lemma cs_step (a b D U V : R) :
  0 <= U -> 0 <= V -> D * D <= U * V ->
  (a * b + D) * (a * b + D) <= (a * a + U) * (b * b + V).
Proof.
  intros HU HV HD.
  set (X := a * a * V + b * b * U).
  assert (HX : 0 <= X).
  { unfold X. pose proof (Rle_0_sqr a). pose proof (Rle_0_sqr b). unfold Rsqr in *.
    apply Rplus_le_le_0_compat; apply Rmult_le_pos; assumption. }
  assert (H4 : 0 <= 4 * (a * a) * (b * b) * (U * V - D * D)).
  { pose proof (Rle_0_sqr a). pose proof (Rle_0_sqr b). unfold Rsqr in *.
    apply Rmult_le_pos; [|lra]. apply Rmult_le_pos; [|assumption]. lra. }
  assert (Hsq : (2 * a * b * D) * (2 * a * b * D) <= X * X).
  { assert (E : X * X - (2 * a * b * D) * (2 * a * b * D)
                = (a * a * V - b * b * U) * (a * a * V - b * b * U)
                  + 4 * (a * a) * (b * b) * (U * V - D * D)) by (unfold X; ring).
    pose proof (Rle_0_sqr (a * a * V - b * b * U)). unfold Rsqr in *. lra. }
  assert (Hlin : 2 * a * b * D <= X) by nra.
  unfold X in Hlin. nra.
Qed.

(** Cauchy-Schwarz for the [dot] of the code. *)
Lemma dot_sq_le (u v : list R) : dot u v * dot u v <= sumsq u * sumsq v.
Proof.
  revert v; induction u as [|a u IH]; intros v.
  - cbn [dot sumsq]. lra.
  - destruct v as [|b v].
    + cbn [dot sumsq]. rewrite Rmult_0_l, Rmult_0_r. lra.
    + cbn [dot sumsq]. apply cs_step; [apply sumsq_nonneg | apply sumsq_nonneg | apply IH].
Qed.

Lemma dot_abs_le (u v : list R) :
  - (norm u * norm v) <= dot u v <= norm u * norm v.
Proof.
  pose proof (dot_sq_le u v) as H.
  pose proof (norm_nonneg u) as Hu. pose proof (norm_nonneg v) as Hv.
  assert (Hn : (norm u * norm v) * (norm u * norm v) = sumsq u * sumsq v).
  { unfold norm.
    replace (sqrt (sumsq u) * sqrt (sumsq v) * (sqrt (sumsq u) * sqrt (sumsq v)))
      with ((sqrt (sumsq u) * sqrt (sumsq u)) * (sqrt (sumsq v) * sqrt (sumsq v))) by ring.
    rewrite !sqrt_sqrt by apply sumsq_nonneg. reflexivity. }
  assert (HN : 0 <= norm u * norm v) by (apply Rmult_le_pos; assumption).
  split; nra.
Qed.


(** Claim C3, as the code has it: the score of a stored row is
    [dot row q / (norm row * norm q)], divided without a zero-norm guard.
    When both norms are non-zero it is a finite value in [[-1, 1]] (exact
    arithmetic); when either norm is 0 the division is 0/0 and the score
    is nan, never a finite value and never an infinity. *)
Theorem cosine_unguarded (row q : list R) :
  match cosine row q with
  | Fin x => norm row <> 0 /\ norm q <> 0 /\
             x = dot row q / (norm row * norm q) /\ -1 <= x <= 1
  | NaN => norm row = 0 \/ norm q = 0
  | PInf | NInf => False
  end.
Proof.
  unfold cosine, fdiv.
  destruct (Req_EM_T (norm row * norm q) 0) as [H0|H0].
  - assert (Hz : norm row = 0 \/ norm q = 0) by (apply Rmult_integral; exact H0).
    assert (Hd : dot row q = 0).
    { destruct Hz as [Hz|Hz]; apply norm_zero_sumsq in Hz;
        [apply sumsq_zero_dot_l | apply sumsq_zero_dot_r]; exact Hz. }
    destruct (Req_EM_T (dot row q) 0) as [_|Hne]; [exact Hz | contradiction].
  - assert (Hr : norm row <> 0) by (intros E; apply H0; rewrite E; ring).
    assert (Hq : norm q <> 0) by (intros E; apply H0; rewrite E; ring).
    split; [exact Hr|]. split; [exact Hq|]. split; [reflexivity|].
    pose proof (dot_abs_le row q) as [Hlo Hhi].
    pose proof (norm_nonneg row). pose proof (norm_nonneg q).
    set (N := norm row * norm q) in *.
    assert (HN : 0 < N) by (unfold N; apply Rmult_lt_0_compat; lra).
    set (y := dot row q / N).
    assert (Hy : y * N = dot row q) by (unfold y; field; lra).
    split; nra.
Qed.

(** Claim C3 fails: a stored zero vector gets score nan, not 0. *)
Lemma cosine_zero_norm_is_nan : norm [0] = 0 /\ cosine [0] [1] = NaN.
Proof.
  assert (Hn : norm [0] = 0).
  { unfold norm. cbn [sumsq]. replace (0 * 0 + 0) with 0 by ring. apply sqrt_0. }
  split; [exact Hn|].
  unfold cosine, fdiv. rewrite Hn.
  cbn [dot]. replace (0 * 1 + 0) with 0 by ring.
  destruct (Req_EM_T (0 * norm [1]) 0) as [_|H]; [|exfalso; apply H; ring].
  destruct (Req_EM_T 0 0) as [_|H]; [reflexivity | contradiction].
Qed.

End CosineProofs.

(** ** The search engine *)

Module EngineProofs.
Import Py Semantic Examples.
Open Scope R_scope.

Lemma find_first {A} (f : A -> bool) (l : list A) (x : A) :
  find f l = Some x ->
  exists pre post, l = (pre ++ x :: post)%list /\ Forall (fun y => f y = false) pre /\ f x = true.
Proof.
  induction l as [|y l IH]; cbn [find]; [discriminate|].
  destruct (f y) eqn:E; intros H.
  - injection H as <-. exists [], l. split; [reflexivity|]. split; [constructor | exact E].
  - destruct (IH H) as [pre [post [Hl [Hpre Hx]]]].
    exists (y :: pre), post. subst l. split; [reflexivity|]. split; [constructor; assumption | exact Hx].
Qed.

Lemma find_none_forall {A} (f : A -> bool) (l : list A) :
  find f l = None -> Forall (fun y => f y = false) l.
Proof.
  intros H. apply Forall_forall. intros x Hx. exact (find_none f l H x Hx).
Qed.

Lemma with_store_database (st : engine) : database (with_store st) = Some (current_store st).
Proof. unfold with_store, current_store. destruct (database st) eqn:E; [exact E | reflexivity]. Qed.

Lemma with_store_calls (st : engine) : encode_calls (with_store st) = encode_calls st.
Proof. unfold with_store. destruct (database st); reflexivity. Qed.

Lemma with_store_embeddings (st : engine) : embeddings (with_store st) = embeddings st.
Proof. unfold with_store. destruct (database st); reflexivity. Qed.

(** The [if self.database is None: self.load_database()] prologue. *)
Lemma store_prologue {A} (k : engine -> M A) (st : engine) :
  (st0 <- get ;;
   (match database st0 with None => load_database | Some _ => ret tt end) ;;;
   st1 <- get ;; k st1) st
  = k (with_store st) (with_store st).
Proof.
  unfold bind, get, ret, load_database, modify, with_store.
  destruct (database st); reflexivity.
Qed.

(** [search] on an engine whose model, embeddings and records are loaded. *)
Lemma search_loaded (available : bool) (encode : string -> string -> list R)
  (argsort_large : list npfloat -> list nat)
  (query : string) (top_k : Z) (min_score : R) (st : engine)
  (embs : list (list R)) (db : list entry) :
  model_loaded st = true -> embeddings st = Some embs -> database st = Some db ->
  search available encode argsort_large query top_k min_score st
  = (if dims_ok embs (encode (model_name st) query) then
       match lookup_all db (similarities embs (encode (model_name st) query))
               (rank_indices argsort_large
                  (similarities embs (encode (model_name st) query)) top_k min_score) with
       | Some rs => inr rs
       | None => inl IndexError
       end
     else inl ValueError, bump_calls st).
Proof.
  intros Hm He Hd. destruct st as [mn ml dbo eo fi df ec]; cbn in Hm, He, Hd; subst.
  unfold search, bind, get, ret, modify, raise. cbn.
  destruct (dims_ok _ _); cbn; [|reflexivity].
  destruct (lookup_all _ _ _); reflexivity.
Qed.

(** Claim C10: an id that matches no record gives the empty result; the
    only state change is the lazy load of the records, and no embedding is
    computed. *)
Theorem related_unknown_id (available : bool) (encode : string -> string -> list R)
  (argsort_large : list npfloat -> list nat)
  (technique_id : string) (top_k : Z) (st : engine)
  (Hnone : forall e, In e (current_store st) -> id e <> technique_id) :
  get_related_techniques available encode argsort_large technique_id top_k st = (inr [], with_store st) /\
  encode_calls (with_store st) = encode_calls st /\
  embeddings (with_store st) = embeddings st.
Proof.
  split; [|split; [apply with_store_calls | apply with_store_embeddings]].
  unfold get_related_techniques. rewrite store_prologue. rewrite with_store_database.
  destruct (find (fun e => String.eqb (id e) technique_id) (current_store st)) eqn:Ef.
  - apply find_some in Ef. destruct Ef as [Hin Heq].
    apply String.eqb_eq in Heq. exfalso. exact (Hnone e Hin Heq).
  - reflexivity.
Qed.

Lemma related_unknown_id_witness :
  (forall e, In e (current_store engine_fresh) -> id e <> "X-0000"%string) /\
  get_related_techniques true enc_ab ins_argsort "X-0000" 3 engine_fresh
  = (inr [], with_store engine_fresh) /\
  encode_calls (with_store engine_fresh) = encode_calls engine_fresh /\
  embeddings (with_store engine_fresh) = embeddings engine_fresh.
Proof.
  assert (H : forall e, In e (current_store engine_fresh) -> id e <> "X-0000"%string).
  { intros e [<-|[<-|[]]]; discriminate. }
  split; [exact H | apply related_unknown_id; exact H].
Defined.

(** Claim C4, as the code has it: [load_embeddings] installs the stored
    vectors whenever the index file exists, whatever model name it was
    saved with; the name is never compared. *)
Theorem load_embeddings_ignores_model (st : engine) (p : persisted)
  (Hfile : index_file st = Some p) :
  load_embeddings st = (inr true, set_embeddings (p_embeddings p) st).
Proof.
  unfold load_embeddings, bind, get, ret, modify. rewrite Hfile. reflexivity.
Qed.

Lemma load_embeddings_ignores_model_witness :
  index_file engine_stale = Some (mk_persisted (Some [[1]; [1]]) "all-MiniLM-L6-v2") /\
  load_embeddings engine_stale
  = (inr true,
     set_embeddings (p_embeddings (mk_persisted (Some [[1]; [1]]) "all-MiniLM-L6-v2"))
       engine_stale).
Proof. split; [reflexivity | apply load_embeddings_ignores_model; reflexivity]. Defined.

(** Claim C4 fails: an index saved under another model name is loaded and
    its vectors installed. *)
Lemma stale_index_loaded :
  (match index_file engine_stale with
   | Some p => p_model_name p <> model_name engine_stale
   | None => False
   end) /\
  fst (load_embeddings engine_stale) = inr true /\
  embeddings (snd (load_embeddings engine_stale)) = Some [[1]; [1]].
Proof.
  split; [cbn; discriminate|]. split; reflexivity.
Qed.


(** Settles the comparisons of concrete reals left by evaluation. *)
Ltac decide_R :=
  repeat match goal with
  | |- context [Rlt_dec ?a ?b] => destruct (Rlt_dec a b); try lra
  | |- context [Rle_dec ?a ?b] => destruct (Rle_dec a b); try lra
  end.

Lemma norm_e1 : norm [1; 0] = 1.
Proof. unfold norm. cbn [sumsq]. replace (1 * 1 + (0 * 0 + 0)) with 1 by ring. apply sqrt_1. Qed.

Lemma norm_e2 : norm [0; 1] = 1.
Proof. unfold norm. cbn [sumsq]. replace (0 * 0 + (1 * 1 + 0)) with 1 by ring. apply sqrt_1. Qed.

Lemma norm_one : norm [1] = 1.
Proof. unfold norm. cbn [sumsq]. replace (1 * 1 + 0) with 1 by ring. apply sqrt_1. Qed.

Lemma fdiv_by_one (x : R) : fdiv x (1 * 1) = Fin x.
Proof.
  unfold fdiv. destruct (Req_EM_T (1 * 1) 0) as [H|_]; [lra|].
  f_equal. field.
Qed.

Lemma cosine_e2_e1 : cosine [0; 1] [1; 0] = Fin 0.
Proof.
  unfold cosine. rewrite norm_e1, norm_e2. cbn [dot].
  replace (0 * 1 + (1 * 0 + 0)) with 0 by ring. apply fdiv_by_one.
Qed.

Lemma cosine_e1_e1 : cosine [1; 0] [1; 0] = Fin 1.
Proof.
  unfold cosine. rewrite norm_e1. cbn [dot].
  replace (1 * 1 + (0 * 0 + 0)) with 1 by ring. apply fdiv_by_one.
Qed.

Lemma cosine_one_one : cosine [1] [1] = Fin 1.
Proof.
  unfold cosine. rewrite norm_one. cbn [dot].
  replace (1 * 1 + 0) with 1 by ring. apply fdiv_by_one.
Qed.

(** Claim C5 fails on the code: the queried record [rec_a] is not the
    best match for its own description, so dropping the first slot keeps
    it in the related-techniques result. The store has two records, so
    [np.argsort] is the insertion sort and the [argsort_large] given here
    is never called. *)
Theorem related_includes_queried_record :
  id rec_a = "REC-0001"%string /\ current_store engine_fresh = [rec_a; rec_b] /\
  fst (get_related_techniques true enc_ab ins_argsort "REC-0001" 1 engine_fresh) = inr [(rec_a, Fin 0)].
Proof.
  split; [reflexivity|]. split; [reflexivity|].
  unfold get_related_techniques. rewrite store_prologue. cbn.
  cbv [bind search get ret modify raise load_model load_embeddings create_embeddings
       save_embeddings load_database].
  cbn. rewrite cosine_e2_e1, cosine_e1_e1. do 3 (simpl; decide_R).
  reflexivity.
Qed.


(** *** The ranking: [np.argsort(...)[::-1][:top_k]] *)




Section Argsort.
Variable key : nat -> npfloat.







End Argsort.












Lemma search_by_tactic_run (tac : string) (st : engine) :
  search_by_tactic tac st
  = (inr (filter (fun e => contains (lower tac) (lower (tactic e))) (current_store st)),
     with_store st).
Proof.
  unfold search_by_tactic. rewrite store_prologue. rewrite with_store_database. reflexivity.
Qed.

Lemma recon_route :
  find (fun kv => contains (fst kv) (lower "what are the reconnaissance techniques"))
    tactic_keywords
  = Some ("reconnaissance", "Reconnaissance")%string.
Proof. reflexivity. Qed.

(** Claim C7: the router takes the tactic path for the first keyword of
    the mapping (in its order) that occurs in the lowercased query, and
    answers with exactly the records, in store order, whose lowercased
    tactic name contains the lowercased canonical name; when no keyword
    occurs it runs [search] with [top_k = 5] and [min_score = 0.3]. The
    query "what are the reconnaissance techniques" takes the tactic path
    for "Reconnaissance" and yields only reconnaissance records. *)
Theorem answer_query_routing (available : bool) (encode : string -> string -> list R)
  (argsort_large : list npfloat -> list nat)
  (query : string) (st : engine) :
  (match find (fun kv => contains (fst kv) (lower query)) tactic_keywords with
   | Some (kw, tac) =>
       (exists pre post, tactic_keywords = (pre ++ (kw, tac) :: post)%list /\
          Forall (fun kv => contains (fst kv) (lower query) = false) pre /\
          contains kw (lower query) = true) /\
       answer_query available encode argsort_large query st
       = (inr (TacticAnswer tac
                 (filter (fun e => contains (lower tac) (lower (tactic e)))
                    (current_store st))),
          with_store st)
   | None =>
       Forall (fun kv => contains (fst kv) (lower query) = false) tactic_keywords /\
       answer_query available encode argsort_large query st
       = (r <- search available encode argsort_large query 5 (3 / 10) ;; ret (SearchAnswer query r)) st
   end) /\
  exists recs,
    answer_query available encode argsort_large "what are the reconnaissance techniques" st
    = (inr (TacticAnswer "Reconnaissance" recs), with_store st) /\
    Forall (fun e => contains "reconnaissance" (lower (tactic e)) = true) recs.
Proof.
  split.
  - destruct (find (fun kv => contains (fst kv) (lower query)) tactic_keywords)
      as [[kw tac]|] eqn:Ef.
    + split.
      * apply find_first in Ef. exact Ef.
      * unfold answer_query; cbv zeta. rewrite Ef.
        unfold bind at 1. rewrite search_by_tactic_run. reflexivity.
    + split; [apply find_none_forall; exact Ef|].
      unfold answer_query; cbv zeta. rewrite Ef. reflexivity.
  - exists (filter (fun e => contains (lower "Reconnaissance") (lower (tactic e)))
              (current_store st)).
    split.
    + unfold answer_query; cbv zeta. rewrite recon_route.
      unfold bind at 1. rewrite search_by_tactic_run. reflexivity.
    + apply Forall_forall. intros e He. apply filter_In in He. apply He.
Qed.

End EngineProofs.

(** ** Database construction *)

Module BuildProofs.
Import Build Examples.

Lemma fold_append_map {A B} (f : A -> B) (l : list A) (acc : list B) :
  fold_left (fun db x => (db ++ [f x])%list) l acc = (acc ++ map f l)%list.
Proof.
  revert acc; induction l as [|x l IH]; intros acc; cbn [fold_left map].
  - rewrite app_nil_r. reflexivity.
  - rewrite IH, <- app_assoc. reflexivity.
Qed.

Lemma fold_techniques (t : tactic_info) (techniques : list technique_info) (acc : list entry) :
  fold_left (fun database tech =>
      fold_left (fun database sub => (database ++ [sub_entry t tech sub])%list)
        (sub_techniques tech) (database ++ [technique_entry t tech])%list)
    techniques acc
  = (acc ++ tactic_records t techniques)%list.
Proof.
  revert acc; induction techniques as [|tech techs IH]; intros acc; cbn [fold_left].
  - rewrite app_nil_r. reflexivity.
  - rewrite fold_append_map, IH. unfold tactic_records. cbn [flat_map].
    rewrite <- !app_assoc. reflexivity.
Qed.

Lemma build_database_eq (tactics : list tactic_info) (data : sparta_data) :
  build_database tactics data = build_spec tactics data.
Proof.
  unfold build_database, build_spec.
  enough (H : forall acc,
    fold_left (fun database t =>
        match lookup (t_id t) data with
        | Some techniques =>
            fold_left (fun database tech =>
                fold_left (fun database sub => (database ++ [sub_entry t tech sub])%list)
                  (sub_techniques tech) (database ++ [technique_entry t tech])%list)
              techniques database
        | None => database
        end) tactics acc
    = (acc ++ flat_map (fun t => match lookup (t_id t) data with
                                 | Some techniques => tactic_records t techniques
                                 | None => []
                                 end) tactics)%list) by apply H.
  induction tactics as [|t ts IH]; intros acc; cbn [fold_left flat_map].
  - rewrite app_nil_r. reflexivity.
  - destruct (lookup (t_id t) data).
    + rewrite fold_techniques, IH, app_assoc. reflexivity.
    + rewrite IH. reflexivity.
Qed.

Lemma in_build_spec (tactics : list tactic_info) (data : sparta_data) (e : entry) :
  In e (build_spec tactics data) ->
  exists t techniques tech, In t tactics /\ lookup (t_id t) data = Some techniques /\
    In tech techniques /\
    (e = technique_entry t tech \/
     exists sub, In sub (sub_techniques tech) /\ e = sub_entry t tech sub).
Proof.
  unfold build_spec. intros He. apply in_flat_map in He. destruct He as [t [Ht He]].
  destruct (lookup (t_id t) data) as [techniques|] eqn:El; [|contradiction].
  unfold tactic_records in He. apply in_flat_map in He. destruct He as [tech [Htech He]].
  exists t, techniques, tech. split; [exact Ht|]. split; [exact El|]. split; [exact Htech|].
  destruct He as [He|He]; [left; symmetry; exact He|].
  right. apply in_map_iff in He. destruct He as [sub [Hsub Hin]].
  exists sub. split; [exact Hin | symmetry; exact Hsub].
Qed.


(** Claim C8, as the code has it: [build_database] always produces a
    record list, never an error. It walks the tactic list only, so a
    technique filed under a tactic id missing from that list yields no
    record; every record carries the id of a listed tactic; and a
    sub-technique record always has its parent technique's record in the
    result, because the parent is implied by nesting. *)
Theorem build_skips_unlisted (tactics : list tactic_info) (data : sparta_data) :
  build_database tactics data = build_spec tactics data /\
  forall e, In e (build_database tactics data) ->
    In (tactic_id e) (map t_id tactics) /\
    (type e = sub_technique ->
     exists p, parent_id e = Some p /\
       exists parent, In parent (build_database tactics data) /\
         id parent = p /\ type parent = technique).
Proof.
  split; [apply build_database_eq|].
  intros e He. rewrite build_database_eq in *.
  destruct (in_build_spec tactics data e He)
    as [t [techniques [tech [Ht [El [Htech He']]]]]].
  assert (Hpar : In (technique_entry t tech) (build_spec tactics data)).
  { unfold build_spec. apply in_flat_map. exists t. split; [exact Ht|].
    rewrite El. unfold tactic_records. apply in_flat_map. exists tech.
    split; [exact Htech | left; reflexivity]. }
  destruct He' as [-> | [sub [Hsub ->]]].
  - split; [exact (in_map t_id _ _ Ht) | discriminate].
  - split; [exact (in_map t_id _ _ Ht)|]. intros _.
    exists (tech_id tech). split; [reflexivity|].
    exists (technique_entry t tech). split; [exact Hpar|]. split; reflexivity.
Qed.

(** Claim C8 fails: the technique keyed under "ST0009", a tactic id absent
    from the tactic list, is dropped and a store is produced. *)
Lemma build_unlisted_tactic_no_error :
  ~ In "ST0009"%string (map t_id [tac_recon]) /\
  In "ST0009"%string (map fst data_unlisted) /\
  build_database [tac_recon] data_unlisted = [technique_entry tac_recon tech_recon].
Proof.
  split; [cbn; intros [H|[]]; discriminate|]. split; [cbn; auto|]. reflexivity.
Qed.

(** Claim C9 fails: the same taxonomy has two techniques and no
    sub-technique, but the store has one record. *)
Lemma build_count_short :
  count_techniques data_unlisted + count_sub_techniques data_unlisted = 2 /\
  List.length (build_database [tac_recon] data_unlisted) = 1.
Proof. split; reflexivity. Qed.

(** Record count of one technique list. *)
Definition tsize (techniques : list technique_info) : nat :=
  fold_right (fun tech m => S (List.length (sub_techniques tech)) + m) 0 techniques.

Definition osize (o : option (list technique_info)) : nat :=
  match o with Some techniques => tsize techniques | None => 0 end.

Lemma tactic_records_length (t : tactic_info) (techniques : list technique_info) :
  List.length (tactic_records t techniques) = tsize techniques.
Proof.
  induction techniques as [|tech techs IH]; [reflexivity|].
  unfold tactic_records in *. cbn [flat_map tsize fold_right].
  rewrite length_app. cbn [List.length]. rewrite length_map, IH. reflexivity.
Qed.

Lemma build_spec_length (tactics : list tactic_info) (data : sparta_data) :
  List.length (build_spec tactics data)
  = list_sum (map (fun t => osize (lookup (t_id t) data)) tactics).
Proof.
  induction tactics as [|t ts IH]; [reflexivity|].
  unfold build_spec in *. cbn [flat_map map list_sum fold_right].
  rewrite length_app, IH. f_equal.
  destruct (lookup (t_id t) data); [apply tactic_records_length | reflexivity].
Qed.

Lemma counts_sum (data : sparta_data) :
  count_techniques data + count_sub_techniques data
  = list_sum (map (fun kv => tsize (snd kv)) data).
Proof.
  induction data as [|[k v] d IH]; [reflexivity|].
  cbn [count_techniques count_sub_techniques fold_right map list_sum snd] in *.
  assert (Hv : tsize v = List.length v +
                 fold_right (fun tech m => List.length (sub_techniques tech) + m) 0 v).
  { induction v as [|tech v IHv]; [reflexivity|]. cbn [tsize fold_right List.length] in *.
    unfold tsize in IHv. rewrite IHv. lia. }
  unfold count_techniques, count_sub_techniques in IH. unfold list_sum in IH. rewrite Hv. lia.
Qed.

Lemma lookup_absent (k : string) (data : sparta_data) :
  ~ In k (map fst data) -> lookup k data = None.
Proof.
  induction data as [|[k' v] d IH]; intros Hk; [reflexivity|].
  cbn [lookup]. destruct (String.eqb_spec k k') as [->|_].
  - exfalso. apply Hk. left. reflexivity.
  - apply IH. intros H. apply Hk. right. exact H.
Qed.

(** A sum over the tactic list in which the one tactic with id [k]
    contributes [c] in place of its [h]. *)
Lemma sum_one_hit (tactics : list tactic_info) (k : string) (c : nat) (h : tactic_info -> nat) :
  count_occ string_dec (map t_id tactics) k = 1 ->
  (forall t, t_id t = k -> h t = 0) ->
  list_sum (map (fun t => if String.eqb (t_id t) k then c else h t) tactics)
  = c + list_sum (map h tactics).
Proof.
  induction tactics as [|t ts IH]; intros Hocc Hh; [discriminate|].
  cbn [map list_sum fold_right count_occ] in *.
  destruct (String.eqb_spec (t_id t) k) as [Ek|Ek].
  - rewrite (Hh t Ek). destruct (string_dec (t_id t) k) as [_|]; [|contradiction].
    injection Hocc as Hocc. apply count_occ_not_In in Hocc.
    assert (Hrest : map (fun t => if String.eqb (t_id t) k then c else h t) ts = map h ts).
    { apply map_ext_in. intros t' Ht'.
      destruct (String.eqb_spec (t_id t') k) as [E'|_]; [|reflexivity].
      exfalso. apply Hocc. rewrite <- E'. apply in_map. exact Ht'. }
    unfold list_sum in *. rewrite Hrest. lia.
  - destruct (string_dec (t_id t) k); [contradiction|].
    unfold list_sum in *. rewrite (IH Hocc Hh). lia.
Qed.

Lemma sum_osize (tactics : list tactic_info) (data : sparta_data) :
  NoDup (map fst data) ->
  (forall k, In k (map fst data) -> count_occ string_dec (map t_id tactics) k = 1) ->
  list_sum (map (fun t => osize (lookup (t_id t) data)) tactics)
  = list_sum (map (fun kv => tsize (snd kv)) data).
Proof.
  induction data as [|[k v] d IH]; intros Hkeys Hocc.
  - cbn. clear. induction tactics as [|t ts IHt]; [reflexivity|]. cbn in *. exact IHt.
  - cbn [map fst list_sum fold_right] in *. inversion Hkeys as [|? ? Hk Hkeys']; subst.
    cbn [lookup snd].
    transitivity (list_sum (map (fun t => if String.eqb (t_id t) k then tsize v
                                          else osize (lookup (t_id t) d)) tactics)).
    { f_equal. apply map_ext. intros t. destruct (String.eqb (t_id t) k); reflexivity. }
    rewrite sum_one_hit; [| apply Hocc; left; reflexivity |].
    + unfold list_sum in *. rewrite IH; [reflexivity | exact Hkeys' |].
      intros k' Hk'. apply Hocc. right. exact Hk'.
    + intros t Et. rewrite Et, lookup_absent by exact Hk. reflexivity.
Qed.

(** Claim C9, as the code has it: when every tactic id keyed in the
    technique data appears exactly once in the tactic list (the data keys
    being distinct, as dictionary keys are; ids with no techniques may be
    absent or repeated), the store has exactly
    count(techniques) + count(sub_techniques) records, in the order:
    tactics in declared order, each technique followed at once by its
    sub-techniques in declared order. *)
Theorem build_count_order (tactics : list tactic_info) (data : sparta_data)
  (Hkeys : NoDup (map fst data))
  (Hocc : forall k, In k (map fst data) -> count_occ string_dec (map t_id tactics) k = 1) :
  build_database tactics data = build_spec tactics data /\
  List.length (build_database tactics data)
  = count_techniques data + count_sub_techniques data.
Proof.
  split; [apply build_database_eq|].
  rewrite build_database_eq, build_spec_length, counts_sum.
  apply sum_osize; assumption.
Qed.

Lemma build_count_order_witness :
  NoDup (map fst data_two) /\
  (forall k, In k (map fst data_two) -> count_occ string_dec (map t_id tactics_dup) k = 1) /\
  build_database tactics_dup data_two = build_spec tactics_dup data_two /\
  List.length (build_database tactics_dup data_two)
  = count_techniques data_two + count_sub_techniques data_two.
Proof.
  assert (H1 : NoDup (map fst data_two)).
  { constructor; [cbn; intros [H|[]]; discriminate | constructor; [intros [] | constructor]]. }
  assert (H2 : forall k, In k (map fst data_two) ->
                         count_occ string_dec (map t_id tactics_dup) k = 1).
  { intros k [<-|[<-|[]]]; reflexivity. }
  split; [exact H1|]. split; [exact H2|].
  apply build_count_order; assumption.
Defined.

End BuildProofs.

(** ** Keyword search: edge behaviour of [search_techniques] *)

Module KeywordEdgeProofs.
Import Py Keyword KeywordProofs.
Open Scope Z_scope.

Lemma contains_empty (s : string) : contains "" s = true.
Proof. destruct s; reflexivity. Qed.

Lemma score_empty (e : entry) : score "" e = 150.
Proof.
  unfold score. cbv zeta. change (lower "") with ""%string.
  rewrite !contains_empty. reflexivity.
Qed.

Lemma filter_all_true {A} (f : A -> bool) (l : list A) :
  (forall x, f x = true) -> filter f l = l.
Proof.
  intros Hf. induction l as [|x l IH]; [reflexivity|]. cbn. rewrite Hf, IH. reflexivity.
Qed.

Lemma filter_same_key_all {A} (s : Z) (l : list (Z * A)) :
  Forall (fun p => fst p = s) l -> filter (same_key s) l = l.
Proof.
  induction 1 as [|p l Hp _ IH]; [reflexivity|].
  cbn. unfold same_key at 1. rewrite Hp, Z.eqb_refl, IH. reflexivity.
Qed.

Lemma sort_desc_const {A} (s : Z) (l : list (Z * A)) :
  Forall (fun p => fst p = s) l -> sort_desc l = l.
Proof.
  intros Hl. destruct (sort_desc_props l) as [_ [Hp Hf]].
  specialize (Hf s). rewrite (filter_same_key_all s l Hl) in Hf.
  rewrite filter_same_key_all in Hf; [exact Hf|].
  eapply Permutation_Forall; [apply Permutation_sym, Hp | exact Hl].
Qed.

Lemma take_map {A B} (f : A -> B) (k : Z) (l : list A) :
  take k (map f l) = map f (take k l).
Proof. unfold take. rewrite length_map. destruct (0 <=? k); apply firstn_map. Qed.

Lemma in_firstn {A} (n : nat) (l : list A) (x : A) : In x (firstn n l) -> In x l.
Proof.
  intros H. rewrite <- (firstn_skipn n l). apply in_or_app. left. exact H.
Qed.

Lemma sorted_length (database : list entry) (query : string) :
  List.length (sort_desc (scored_results database query))
  = List.length (filter (fun e => 0 <? score query e) database).
Proof.
  destruct (sort_desc_props (scored_results database query)) as [_ [Hp _]].
  rewrite (Permutation_length Hp), scored_results_eq, length_map. reflexivity.
Qed.

(** [search_techniques] with the empty query: [query_lower in s] holds for
    every string [s] and the query has no words, so every record scores
    exactly 150 and, the sort being stable, the result is the store's own
    prefix [database[:top_k]], for any [top_k] (a negative one included). *)
Theorem search_empty_query (database : list entry) (top_k : Z) :
  (forall e, score "" e = 150) /\
  search_techniques database "" top_k = take top_k database.
Proof.
  split; [exact score_empty|].
  unfold search_techniques. rewrite scored_results_eq.
  rewrite (filter_all_true _ database) by (intros e; rewrite score_empty; reflexivity).
  rewrite (map_ext (fun e => (score "" e, e)) (fun e => (150, e)))
    by (intros e; rewrite score_empty; reflexivity).
  rewrite sort_desc_const with (s := 150).
  - rewrite take_map, map_map. apply map_id.
  - apply Forall_forall. intros p Hp. apply in_map_iff in Hp as [e [<- _]]. reflexivity.
Qed.

(** For [top_k >= 0], [search_techniques] returns exactly
    [min(top_k, number of records with a positive score)] records, each a
    record of the database. *)
Theorem search_techniques_length (database : list entry) (query : string) (top_k : Z)
  (Htop : 0 <= top_k) :
  List.length (search_techniques database query top_k)
  = Nat.min (Z.to_nat top_k) (List.length (filter (fun e => 0 <? score query e) database)) /\
  (forall e, In e (search_techniques database query top_k) -> In e database).
Proof.
  unfold search_techniques, take.
  replace (0 <=? top_k) with true by (symmetry; apply Z.leb_le; exact Htop).
  split.
  - rewrite length_map, length_firstn, sorted_length. reflexivity.
  - intros e He. apply in_map_iff in He as [p [<- Hp]]. apply in_firstn in Hp.
    destruct (sort_desc_props (scored_results database query)) as [_ [Hperm _]].
    apply (Permutation_in _ Hperm) in Hp. rewrite scored_results_eq in Hp.
    apply in_map_iff in Hp as [e [<- Hin]]. apply filter_In in Hin. apply Hin.
Qed.

Lemma search_techniques_length_witness :
  0 <= 1 /\
  List.length (search_techniques Examples.store_ab "spacecraft" 1)
  = Nat.min (Z.to_nat 1)
      (List.length (filter (fun e => 0 <? score "spacecraft" e) Examples.store_ab)) /\
  (forall e, In e (search_techniques Examples.store_ab "spacecraft" 1) -> In e Examples.store_ab).
Proof.
  split; [lia|]. apply search_techniques_length. lia.
Defined.

(** A negative [top_k] is a Python slice bound: [scored_results[:top_k]]
    drops the last [-top_k] records of the full ranking instead of
    returning none. *)
Theorem search_negative_top_k (database : list entry) (query : string) (top_k : Z)
  (Hneg : top_k < 0) :
  search_techniques database query top_k
  = firstn (List.length (search_techniques database query (Z.of_nat (List.length database)))
            - Z.to_nat (- top_k))
      (search_techniques database query (Z.of_nat (List.length database))).
Proof.
  unfold search_techniques, take.
  replace (0 <=? top_k) with false by (symmetry; apply Z.leb_gt; exact Hneg).
  replace (0 <=? Z.of_nat (List.length database)) with true
    by (symmetry; apply Z.leb_le; lia).
  assert (Hle : (List.length (sort_desc (scored_results database query))
                 <= List.length database)%nat).
  { rewrite sorted_length. apply filter_length_le. }
  rewrite Nat2Z.id, (firstn_all2 _ Hle), length_map, firstn_map. f_equal. f_equal. lia.
Qed.

Lemma search_negative_top_k_witness :
  -1 < 0 /\
  search_techniques Examples.store_ab "spacecraft" (-1)
  = firstn (List.length (search_techniques Examples.store_ab "spacecraft"
                           (Z.of_nat (List.length Examples.store_ab)))
            - Z.to_nat (- -1))
      (search_techniques Examples.store_ab "spacecraft"
         (Z.of_nat (List.length Examples.store_ab))).
Proof.
  split; [lia|]. apply search_negative_top_k. lia.
Defined.

End KeywordEdgeProofs.

(** ** Statistics ([get_statistics]) *)

Module StatsProofs.
Import Stats.

Definition default_counts (o : option tactic_counts) : tactic_counts :=
  match o with Some c => c | None => mk_counts 0 0 end.

Definition is_type (t : entry_type) : nat :=
  match t with technique => 1 | sub_technique => 0 end.

Definition sum_t (d : dict) : nat := list_sum (map (fun kv => c_techniques (snd kv)) d).
Definition sum_s (d : dict) : nat := list_sum (map (fun kv => c_sub_techniques (snd kv)) d).

Lemma count_type_app (t : entry_type) (l1 l2 : list entry) :
  count_type t (l1 ++ l2) = count_type t l1 + count_type t l2.
Proof. unfold count_type. rewrite filter_app, length_app. reflexivity. Qed.

Lemma count_types_length (database : list entry) :
  List.length database = count_type technique database + count_type sub_technique database.
Proof.
  induction database as [|e r IH]; [reflexivity|].
  unfold count_type in *. cbn. destruct (type e); cbn; lia.
Qed.

Lemma dict_mem_in (k : string) (d : dict) : dict_mem k d = true <-> In k (map fst d).
Proof.
  unfold dict_mem. rewrite existsb_exists. split.
  - intros [kv [Hin Hk]]. apply String.eqb_eq in Hk. subst k. apply in_map. exact Hin.
  - intros Hk. apply in_map_iff in Hk as [kv [<- Hin]]. exists kv.
    split; [exact Hin | apply String.eqb_refl].
Qed.

Lemma dict_update_keys (k : string) (f : tactic_counts -> tactic_counts) (d : dict) :
  map fst (dict_update k f d) = map fst d.
Proof.
  unfold dict_update. rewrite map_map. apply map_ext. intros [k' v].
  cbn. destruct (String.eqb k' k); reflexivity.
Qed.

Lemma dict_get_update (x k : string) (f : tactic_counts -> tactic_counts) (d : dict) :
  dict_get x (dict_update k f d)
  = if String.eqb k x then option_map f (dict_get x d) else dict_get x d.
Proof.
  unfold dict_update.
  induction d as [|[k' v] r IH]; cbn; [destruct (String.eqb k x); reflexivity|].
  destruct (String.eqb_spec k' k) as [->|Hk']; cbn.
  - destruct (String.eqb_spec k x); [reflexivity|].
    rewrite IH. destruct (String.eqb_spec k x); [contradiction | reflexivity].
  - destruct (String.eqb_spec k' x) as [->|Hx]; [|exact IH].
    destruct (String.eqb_spec k x); [congruence | reflexivity].
Qed.

Lemma dict_get_app (x k : string) (v : tactic_counts) (d : dict) :
  dict_get x (d ++ [(k, v)]) =
  match dict_get x d with Some w => Some w | None => if String.eqb k x then Some v else None end.
Proof.
  induction d as [|[k' w] r IH]; [reflexivity|].
  cbn. destruct (String.eqb k' x); [reflexivity | exact IH].
Qed.

Lemma dict_get_in (x : string) (d : dict) : In x (map fst d) -> exists v, dict_get x d = Some v.
Proof.
  induction d as [|[k v] r IH]; intros Hx; [contradiction|].
  cbn. destruct (String.eqb_spec k x) as [_|Hk]; [eauto|].
  destruct Hx as [Hx|Hx]; [cbn in Hx; contradiction | exact (IH Hx)].
Qed.

Lemma dict_get_step (x : string) (d : dict) (e : entry) :
  dict_get x (tactic_step d e)
  = if String.eqb (tactic e) x then Some (incr (type e) (default_counts (dict_get x d)))
    else dict_get x d.
Proof.
  unfold tactic_step. cbv zeta. rewrite dict_get_update.
  destruct (String.eqb_spec (tactic e) x) as [<-|Hx].
  - destruct (dict_mem (tactic e) d) eqn:Hm.
    + apply dict_mem_in, dict_get_in in Hm as [v Hv]. rewrite Hv. reflexivity.
    + rewrite dict_get_app, String.eqb_refl.
      destruct (dict_get (tactic e) d) eqn:Hg; reflexivity.
  - destruct (dict_mem (tactic e) d); [reflexivity|].
    rewrite dict_get_app. destruct (dict_get x d); [reflexivity|].
    destruct (String.eqb_spec (tactic e) x); [contradiction | reflexivity].
Qed.

Lemma step_keys (d : dict) (e : entry) :
  NoDup (map fst d) -> NoDup (map fst (tactic_step d e)).
Proof.
  intros Hnd. unfold tactic_step. cbv zeta. rewrite dict_update_keys.
  destruct (dict_mem (tactic e) d) eqn:Hm; [exact Hnd|].
  rewrite map_app. cbn. apply NoDup_app; [exact Hnd | repeat constructor; intros [] |].
  intros k Hk [<-|[]]. apply (proj2 (dict_mem_in _ _)) in Hk. congruence.
Qed.

Lemma fold_step_keys (l : list entry) (d : dict) :
  NoDup (map fst d) -> NoDup (map fst (fold_left tactic_step l d)).
Proof.
  revert d. induction l as [|e l IH]; intros d Hnd; [exact Hnd|].
  cbn. apply IH, step_keys, Hnd.
Qed.

Lemma sum_update_absent (k : string) (f : tactic_counts -> tactic_counts) (d : dict) :
  ~ In k (map fst d) -> dict_update k f d = d.
Proof.
  induction d as [|[k' v] r IH]; intros Hk; [reflexivity|].
  cbn. destruct (String.eqb_spec k' k) as [->|_].
  - exfalso. apply Hk. left. reflexivity.
  - f_equal. apply IH. intros H. apply Hk. right. exact H.
Qed.

Lemma dict_update_cons (k k' : string) (v : tactic_counts) (f : tactic_counts -> tactic_counts)
  (r : dict) :
  dict_update k f ((k', v) :: r) = (k', if String.eqb k' k then f v else v) :: dict_update k f r.
Proof. unfold dict_update. cbn. destruct (String.eqb k' k); reflexivity. Qed.

Lemma sum_t_cons (k : string) (v : tactic_counts) (r : dict) :
  sum_t ((k, v) :: r) = c_techniques v + sum_t r.
Proof. reflexivity. Qed.

Lemma sum_s_cons (k : string) (v : tactic_counts) (r : dict) :
  sum_s ((k, v) :: r) = c_sub_techniques v + sum_s r.
Proof. reflexivity. Qed.

Lemma sums_update (k : string) (t : entry_type) (d : dict) :
  NoDup (map fst d) -> In k (map fst d) ->
  sum_t (dict_update k (incr t) d) = sum_t d + is_type t /\
  sum_s (dict_update k (incr t) d) = sum_s d + (1 - is_type t).
Proof.
  induction d as [|[k' v] r IH]; intros Hnd Hk; [contradiction|].
  inversion Hnd as [|? ? Hnot Hnd']; subst.
  rewrite dict_update_cons, !sum_t_cons, !sum_s_cons.
  destruct (String.eqb_spec k' k) as [->|Hne].
  - rewrite sum_update_absent by exact Hnot. destruct t; cbn; lia.
  - destruct Hk as [Hk|Hk]; [cbn in Hk; contradiction|].
    destruct (IH Hnd' Hk) as [H1 H2]. rewrite H1, H2. destruct t; cbn; lia.
Qed.

Lemma sums_step (d : dict) (e : entry) :
  NoDup (map fst d) ->
  sum_t (tactic_step d e) = sum_t d + is_type (type e) /\
  sum_s (tactic_step d e) = sum_s d + (1 - is_type (type e)).
Proof.
  intros Hnd. unfold tactic_step. cbv zeta.
  destruct (dict_mem (tactic e) d) eqn:Hm.
  - apply sums_update; [exact Hnd | apply dict_mem_in, Hm].
  - assert (Hnd' : NoDup (map fst (d ++ [(tactic e, mk_counts 0 0)]))).
    { rewrite map_app. cbn. apply NoDup_app; [exact Hnd | repeat constructor; intros [] |].
      intros k Hk [<-|[]]. apply (proj2 (dict_mem_in _ _)) in Hk. congruence. }
    destruct (sums_update (tactic e) (type e) _ Hnd') as [H1 H2].
    { rewrite map_app. apply in_or_app. right. left. reflexivity. }
    rewrite H1, H2. unfold sum_t, sum_s. rewrite !map_app, !list_sum_app. cbn. lia.
Qed.

Lemma count_type_cons (t : entry_type) (e : entry) (l : list entry) :
  count_type t (e :: l) = (if type_eqb (type e) t then 1 else 0) + count_type t l.
Proof. unfold count_type. cbn. destruct (type_eqb (type e) t); reflexivity. Qed.

Lemma fold_sums (l : list entry) (d : dict) :
  NoDup (map fst d) ->
  sum_t (fold_left tactic_step l d) = sum_t d + count_type technique l /\
  sum_s (fold_left tactic_step l d) = sum_s d + count_type sub_technique l.
Proof.
  revert d. induction l as [|e l IH]; intros d Hnd; [unfold count_type; cbn [fold_left filter List.length]; split; lia|].
  cbn [fold_left]. rewrite !count_type_cons.
  destruct (sums_step d e Hnd) as [H1 H2].
  destruct (IH _ (step_keys d e Hnd)) as [H3 H4]. rewrite H3, H4, H1, H2.
  destruct (type e); cbn; lia.
Qed.

Lemma existsb_false_filter {A} (f : A -> bool) (l : list A) :
  existsb f l = false -> filter f l = [].
Proof.
  induction l as [|a l IH]; [reflexivity|]. cbn.
  destruct (f a); [discriminate | exact IH].
Qed.

(** [get_statistics] is consistent: [total_entries] is [techniques +
    sub_techniques] (every record is of one of the two types), and the
    per-tactic rows add up to the two global counts. *)
Theorem statistics_totals (database : list entry) :
  total_entries (get_statistics database)
  = techniques (get_statistics database) + sub_techniques (get_statistics database) /\
  list_sum (map (fun kv => c_techniques (snd kv)) (tactics (get_statistics database)))
  = techniques (get_statistics database) /\
  list_sum (map (fun kv => c_sub_techniques (snd kv)) (tactics (get_statistics database)))
  = sub_techniques (get_statistics database).
Proof.
  unfold get_statistics. cbn [total_entries techniques sub_techniques tactics].
  split; [apply count_types_length|].
  destruct (fold_sums database [] (NoDup_nil _)) as [H1 H2].
  unfold sum_t, sum_s in H1, H2. exact (conj H1 H2).
Qed.

(** The ["tactics"] dictionary of [get_statistics] has one key per
    distinct tactic name of the database, and the row of a tactic counts
    exactly the records of that tactic of each type. *)
Theorem statistics_by_tactic (database : list entry) (x : string) :
  NoDup (map fst (tactics (get_statistics database))) /\
  dict_get x (tactics (get_statistics database))
  = if existsb (fun e => String.eqb (tactic e) x) database
    then Some (mk_counts
                 (count_type technique (filter (fun e => String.eqb (tactic e) x) database))
                 (count_type sub_technique (filter (fun e => String.eqb (tactic e) x) database)))
    else None.
Proof.
  unfold get_statistics. cbn [tactics].
  split; [apply fold_step_keys, NoDup_nil|].
  induction database as [|e l IH] using rev_ind; [reflexivity|].
  rewrite fold_left_app. cbn [fold_left]. rewrite dict_get_step, IH.
  rewrite existsb_app, filter_app, !count_type_app. cbn [existsb filter].
  destruct (String.eqb (tactic e) x); cbn [orb].
  - rewrite orb_true_r, !count_type_cons.
    change (count_type technique []) with 0. change (count_type sub_technique []) with 0.
    destruct (existsb (fun e => String.eqb (tactic e) x) l) eqn:Hex.
    + destruct (type e); cbn; f_equal; f_equal; lia.
    + rewrite (existsb_false_filter _ _ Hex). destruct (type e); reflexivity.
  - rewrite orb_false_r.
    change (count_type technique []) with 0. change (count_type sub_technique []) with 0.
    rewrite !Nat.add_0_r. reflexivity.
Qed.

End StatsProofs.

(** ** The built store: statistics and parent order *)

Module BuildStoreProofs.
Import Build BuildProofs.

Definition on_lookup (g : list technique_info -> nat) (data : sparta_data) (t : tactic_info) : nat :=
  match lookup (t_id t) data with Some techniques => g techniques | None => 0 end.

Lemma sum_lookup (g : list technique_info -> nat) (tacs : list tactic_info) (data : sparta_data) :
  NoDup (map fst data) ->
  (forall k, In k (map fst data) -> count_occ string_dec (map t_id tacs) k = 1) ->
  list_sum (map (on_lookup g data) tacs) = list_sum (map (fun kv => g (snd kv)) data).
Proof.
  induction data as [|[k v] d IH]; intros Hkeys Hocc.
  - cbn. clear. induction tacs as [|t ts IHt]; [reflexivity|]. cbn in *. exact IHt.
  - cbn [map fst list_sum fold_right] in *. inversion Hkeys as [|? ? Hk Hkeys']; subst.
    transitivity (list_sum (map (fun t => if String.eqb (t_id t) k then g v
                                          else on_lookup g d t) tacs)).
    { f_equal. apply map_ext. intros t. unfold on_lookup. cbn [lookup snd].
      destruct (String.eqb (t_id t) k); reflexivity. }
    rewrite sum_one_hit; [| apply Hocc; left; reflexivity |].
    + unfold list_sum in *. rewrite IH; [reflexivity | exact Hkeys' |].
      intros k' Hk'. apply Hocc. right. exact Hk'.
    + intros t Et. unfold on_lookup. rewrite Et, lookup_absent by exact Hk. reflexivity.
Qed.

Definition type_count (ty : entry_type) (techniques : list technique_info) : nat :=
  match ty with
  | technique => List.length techniques
  | sub_technique =>
      fold_right (fun tech m => List.length (sub_techniques tech) + m) 0 techniques
  end.

Lemma count_type_map_sub (ty : entry_type) (t : tactic_info) (tech : technique_info)
  (subs : list sub_info) :
  Stats.count_type ty (map (sub_entry t tech) subs)
  = match ty with technique => 0 | sub_technique => List.length subs end.
Proof.
  induction subs as [|sub subs IH]; [destruct ty; reflexivity|].
  cbn [map]. rewrite StatsProofs.count_type_cons, IH. destruct ty; reflexivity.
Qed.

Lemma count_type_records (ty : entry_type) (t : tactic_info) (techniques : list technique_info) :
  Stats.count_type ty (tactic_records t techniques) = type_count ty techniques.
Proof.
  induction techniques as [|tech techs IH]; [destruct ty; reflexivity|].
  unfold tactic_records in *. cbn [flat_map].
  rewrite StatsProofs.count_type_app, StatsProofs.count_type_cons, count_type_map_sub, IH.
  destruct ty; cbn; lia.
Qed.

Lemma count_type_build_spec (ty : entry_type) (tacs : list tactic_info) (data : sparta_data) :
  Stats.count_type ty (build_spec tacs data)
  = list_sum (map (on_lookup (type_count ty) data) tacs).
Proof.
  induction tacs as [|t ts IH]; [reflexivity|].
  unfold build_spec in *. cbn [flat_map map list_sum fold_right].
  rewrite StatsProofs.count_type_app, IH. f_equal. unfold on_lookup.
  destruct (lookup (t_id t) data); [apply count_type_records | reflexivity].
Qed.

Lemma count_techniques_sum (data : sparta_data) :
  count_techniques data = list_sum (map (fun kv => type_count technique (snd kv)) data).
Proof.
  induction data as [|kv d IH]; [reflexivity|].
  unfold count_techniques, count_sub_techniques, list_sum in *. cbn [fold_right map].
  rewrite IH. reflexivity.
Qed.

Lemma count_sub_techniques_sum (data : sparta_data) :
  count_sub_techniques data = list_sum (map (fun kv => type_count sub_technique (snd kv)) data).
Proof.
  induction data as [|kv d IH]; [reflexivity|].
  unfold count_techniques, count_sub_techniques, list_sum in *. cbn [fold_right map].
  rewrite IH. reflexivity.
Qed.

(** [get_statistics] on the store [build_database] returns, under the
    same conditions as the record count (every tactic id keyed in the data
    appears exactly once in the tactic list, distinct keys; other ids may
    be absent or repeated), reports exactly the number of techniques and
    of sub-techniques in the technique data. *)
Theorem statistics_of_build (tacs : list tactic_info) (data : sparta_data)
  (Hkeys : NoDup (map fst data))
  (Hocc : forall k, In k (map fst data) -> count_occ string_dec (map t_id tacs) k = 1) :
  Stats.techniques (Stats.get_statistics (build_database tacs data)) = count_techniques data /\
  Stats.sub_techniques (Stats.get_statistics (build_database tacs data))
  = count_sub_techniques data.
Proof.
  unfold Stats.get_statistics. cbn [Stats.techniques Stats.sub_techniques].
  rewrite build_database_eq, !count_type_build_spec, count_techniques_sum,
    count_sub_techniques_sum.
  split; apply sum_lookup; assumption.
Qed.

Lemma statistics_of_build_witness :
  NoDup (map fst Examples.data_two) /\
  (forall k, In k (map fst Examples.data_two) ->
             count_occ string_dec (map t_id Examples.tactics_dup) k = 1) /\
  Stats.techniques (Stats.get_statistics
    (build_database Examples.tactics_dup Examples.data_two))
  = count_techniques Examples.data_two /\
  Stats.sub_techniques (Stats.get_statistics
    (build_database Examples.tactics_dup Examples.data_two))
  = count_sub_techniques Examples.data_two.
Proof.
  assert (H1 : NoDup (map fst Examples.data_two)).
  { constructor; [cbn; intros [H|[]]; discriminate | constructor; [intros [] | constructor]]. }
  assert (H2 : forall k, In k (map fst Examples.data_two) ->
                         count_occ string_dec (map t_id Examples.tactics_dup) k = 1).
  { intros k [<-|[<-|[]]]; reflexivity. }
  split; [exact H1|]. split; [exact H2|].
  apply statistics_of_build; assumption.
Defined.

(** In the store [build_database] returns, every sub-technique record
    comes after the record of its parent technique (same id and name as
    its [parent_id] and [parent_name], same tactic), and only records of
    sibling sub-techniques lie between the two. *)
Theorem build_parent_precedes (tacs : list tactic_info) (data : sparta_data) (e : entry)
  (He : In e (build_database tacs data)) (Hsub : type e = sub_technique) :
  exists pre p mid post,
    build_database tacs data = (pre ++ p :: mid ++ e :: post)%list /\
    type p = technique /\ parent_id e = Some (id p) /\ parent_name e = Some (name p) /\
    tactic_id p = tactic_id e /\
    Forall (fun m => type m = sub_technique /\ parent_id m = Some (id p)) mid.
Proof.
  rewrite build_database_eq in *. unfold build_spec in *.
  apply in_flat_map in He as [t [Ht He]].
  destruct (lookup (t_id t) data) as [techs|] eqn:Hl; [|contradiction].
  unfold tactic_records in He. apply in_flat_map in He as [tech [Htech He]].
  destruct He as [He|He]; [subst e; discriminate|].
  apply in_map_iff in He as [sub [He Hsubin]]. subst e.
  apply in_split in Ht as [T1 [T2 ->]]. apply in_split in Htech as [A [B ->]].
  apply in_split in Hsubin as [S1 [S2 Hs]].
  exists (flat_map (fun t => match lookup (t_id t) data with
                             | Some techniques => tactic_records t techniques
                             | None => []
                             end) T1
          ++ flat_map (fun tech => technique_entry t tech
                                   :: map (sub_entry t tech) (sub_techniques tech)) A)%list,
         (technique_entry t tech), (map (sub_entry t tech) S1),
         (map (sub_entry t tech) S2
          ++ flat_map (fun tech => technique_entry t tech
                                   :: map (sub_entry t tech) (sub_techniques tech)) B
          ++ flat_map (fun t => match lookup (t_id t) data with
                                | Some techniques => tactic_records t techniques
                                | None => []
                                end) T2)%list.
  repeat split.
  - rewrite flat_map_app. cbn [flat_map]. rewrite Hl. unfold tactic_records.
    rewrite flat_map_app. cbn [flat_map]. rewrite Hs, map_app. cbn [map].
    rewrite <- !app_assoc. cbn. rewrite <- !app_assoc. reflexivity.
  - apply Forall_forall. intros m Hm. apply in_map_iff in Hm as [s' [<- _]].
    split; reflexivity.
Qed.

Lemma build_parent_precedes_witness :
  In (sub_entry Examples.tac_execution Examples.tech_jam Examples.sub_downlink)
     (build_database [Examples.tac_execution] Examples.data_jam) /\
  type (sub_entry Examples.tac_execution Examples.tech_jam Examples.sub_downlink)
  = sub_technique /\
  exists pre p mid post,
    build_database [Examples.tac_execution] Examples.data_jam
    = (pre ++ p :: mid ++ sub_entry Examples.tac_execution Examples.tech_jam
                            Examples.sub_downlink :: post)%list /\
    type p = technique /\
    parent_id (sub_entry Examples.tac_execution Examples.tech_jam Examples.sub_downlink)
    = Some (id p) /\
    parent_name (sub_entry Examples.tac_execution Examples.tech_jam Examples.sub_downlink)
    = Some (name p) /\
    tactic_id p
    = tactic_id (sub_entry Examples.tac_execution Examples.tech_jam Examples.sub_downlink) /\
    Forall (fun m => type m = sub_technique /\ parent_id m = Some (id p)) mid.
Proof.
  assert (He : In (sub_entry Examples.tac_execution Examples.tech_jam Examples.sub_downlink)
                  (build_database [Examples.tac_execution] Examples.data_jam)).
  { simpl. right. right. left. reflexivity. }
  split; [exact He|]. split; [reflexivity|].
  apply build_parent_precedes; [exact He | reflexivity].
Defined.

End BuildStoreProofs.

(** ** Tactic answers ([_format_tactic_response]) *)

Module FormatProofs.
Import Format.

Lemma filter_all_false {A} (f : A -> bool) (l : list A) :
  (forall x, In x l -> f x = false) -> filter f l = [].
Proof.
  induction l as [|x l IH]; intros Hf; [reflexivity|]. cbn.
  rewrite (Hf x (or_introl eq_refl)). apply IH. intros y Hy. apply Hf. right. exact Hy.
Qed.

Lemma length_flat_map_const {A B} (f : A -> list B) (n : nat) (l : list A) :
  (forall x, In x l -> List.length (f x) = n) -> List.length (flat_map f l) = n * List.length l.
Proof.
  induction l as [|x l IH]; intros Hf; cbn; [lia|].
  rewrite length_app, (Hf x (or_introl eq_refl)), IH; [lia|].
  intros y Hy. apply Hf. right. exact Hy.
Qed.

(** [_format_tactic_response] on a list in which no sub-technique has
    its parent among the list's main techniques: the response is exactly
    the two header lines and two lines per main technique, with no
    sub-technique line at all, while the header still counts every
    sub-technique. *)
Theorem tactic_response_orphans (tactic : string) (techniques : list entry)
  (Horphan : forall s m, In s techniques -> In m techniques ->
             type s = sub_technique -> type m = technique -> parent_id s <> Some (id m)) :
  List.length (format_tactic_lines tactic techniques)
  = 2 + 2 * List.length (filter is_main techniques) /\
  nth 1 (format_tactic_lines tactic techniques) ""%string
  = ("Found " ++ str_nat (List.length (filter is_main techniques)) ++ " techniques and "
     ++ str_nat (List.length (filter is_sub techniques)) ++ " sub-techniques." ++ nl)%string.
Proof.
  split; [|reflexivity].
  unfold format_tactic_lines. cbv zeta. rewrite length_app. cbn [List.length].
  f_equal. f_equal. apply length_flat_map_const. intros m Hm.
  apply filter_In in Hm as [Hm Hmain].
  rewrite filter_all_false; [reflexivity|].
  intros s Hs. apply filter_In in Hs as [Hs Hsub].
  unfold parent_is. destruct (parent_id s) as [p|] eqn:Hp; [|reflexivity].
  destruct (String.eqb_spec p (id m)) as [->|]; [|reflexivity].
  exfalso. apply (Horphan s m Hs Hm).
  - unfold is_sub in Hsub. destruct (type s); [discriminate | reflexivity].
  - unfold is_main in Hmain. destruct (type m); [reflexivity | discriminate].
  - exact Hp.
Qed.

Lemma tactic_response_orphans_witness :
  (forall s m, In s [Examples.rec_a; Build.sub_entry Examples.tac_execution Examples.tech_jam
                                       Examples.sub_uplink] ->
               In m [Examples.rec_a; Build.sub_entry Examples.tac_execution Examples.tech_jam
                                       Examples.sub_uplink] ->
               type s = sub_technique -> type m = technique -> parent_id s <> Some (id m)) /\
  List.length (format_tactic_lines "Reconnaissance"
                 [Examples.rec_a; Build.sub_entry Examples.tac_execution Examples.tech_jam
                                    Examples.sub_uplink])
  = 2 + 2 * List.length (filter is_main
                 [Examples.rec_a; Build.sub_entry Examples.tac_execution Examples.tech_jam
                                    Examples.sub_uplink]) /\
  nth 1 (format_tactic_lines "Reconnaissance"
           [Examples.rec_a; Build.sub_entry Examples.tac_execution Examples.tech_jam
                              Examples.sub_uplink]) ""%string
  = ("Found " ++ str_nat (List.length (filter is_main
                 [Examples.rec_a; Build.sub_entry Examples.tac_execution Examples.tech_jam
                                    Examples.sub_uplink]))
     ++ " techniques and "
     ++ str_nat (List.length (filter is_sub
                 [Examples.rec_a; Build.sub_entry Examples.tac_execution Examples.tech_jam
                                    Examples.sub_uplink]))
     ++ " sub-techniques." ++ nl)%string.
Proof.
  assert (H : forall s m, In s [Examples.rec_a; Build.sub_entry Examples.tac_execution
                                   Examples.tech_jam Examples.sub_uplink] ->
              In m [Examples.rec_a; Build.sub_entry Examples.tac_execution
                                   Examples.tech_jam Examples.sub_uplink] ->
              type s = sub_technique -> type m = technique -> parent_id s <> Some (id m)).
  { intros s m Hs Hm Ht Htm.
    destruct Hs as [<-|[<-|[]]]; destruct Hm as [<-|[<-|[]]]; cbn in *; congruence. }
  split; [exact H|]. apply tactic_response_orphans. exact H.
Defined.

End FormatProofs.

(** ** The search engine: persistence, failures and results *)

Module EngineStateProofs.
Import Py Semantic Examples EngineProofs.
Open Scope R_scope.

(** [np.dot(self.embeddings, query_embedding)] raises ValueError when a
    stored vector's length differs from the query's: an index written with
    a model of another dimension, which [load_embeddings] accepts whatever
    the current model (claim C4), makes [search] fail right after the query
    is encoded, with no other change to the engine. *)
Theorem search_dimension_mismatch (available : bool) (encode : string -> string -> list R)
  (argsort_large : list npfloat -> list nat)
  (query : string) (top_k : Z) (min_score : R) (st : engine)
  (embs : list (list R)) (row : list R)
  (Hm : model_loaded st = true) (He : embeddings st = Some embs) (Hrow : In row embs)
  (Hdim : List.length row <> List.length (encode (model_name st) query)) :
  search available encode argsort_large query top_k min_score st
  = (inl ValueError, bump_calls st).
Proof.
  destruct st as [mn ml dbo eo fi df ec]; cbn in Hm, He, Hdim; subst.
  unfold search, bind, get, ret, modify, raise. cbn.
  replace (dims_ok embs (encode mn query)) with false; [reflexivity|].
  symmetry. unfold dims_ok. destruct embs as [|r0 rs]; [reflexivity|].
  apply Bool.not_true_iff_false. intros Hall. rewrite forallb_forall in Hall.
  apply Hdim. apply Nat.eqb_eq. exact (Hall row Hrow).
Qed.

Lemma search_dimension_mismatch_witness :
  model_loaded (set_embeddings (Some [[1]; [1]]) (set_model_loaded engine_stale)) = true /\
  embeddings (set_embeddings (Some [[1]; [1]]) (set_model_loaded engine_stale))
  = Some [[1]; [1]] /\
  In [1] [[1]; [1]] /\
  List.length [1] <> List.length (enc_ab (model_name engine_stale) "jamming") /\
  search true enc_ab ins_argsort "jamming" 5 0
    (set_embeddings (Some [[1]; [1]]) (set_model_loaded engine_stale))
  = (inl ValueError,
     bump_calls (set_embeddings (Some [[1]; [1]]) (set_model_loaded engine_stale))).
Proof.
  split; [reflexivity|]. split; [reflexivity|]. split; [left; reflexivity|].
  assert (Hd : List.length [1] <> List.length (enc_ab (model_name engine_stale) "jamming"))
    by (cbn; discriminate).
  split; [exact Hd|].
  apply (search_dimension_mismatch true enc_ab ins_argsort "jamming" 5 0
           (set_embeddings (Some [[1]; [1]]) (set_model_loaded engine_stale))
           [[1]; [1]] [1]); [reflexivity | reflexivity | left; reflexivity | exact Hd].
Defined.


(** Without sentence-transformers and with no model loaded, [search] and
    [create_embeddings] raise [ImportError] before touching the engine, and
    so does every [answer_query] that mentions no tactic keyword. *)
Theorem unavailable_model_raises (encode : string -> string -> list R)
  (argsort_large : list npfloat -> list nat) (query : string)
  (top_k : Z) (min_score : R) (st : engine) (Hm : model_loaded st = false) :
  search false encode argsort_large query top_k min_score st = (inl ImportError, st) /\
  create_embeddings false encode st = (inl ImportError, st) /\
  (find (fun kv => contains (fst kv) (lower query)) tactic_keywords = None ->
   answer_query false encode argsort_large query st = (inl ImportError, st)).
Proof.
  destruct st as [mn ml dbo eo fi df ec]; cbn in Hm; subst ml.
  split; [reflexivity|]. split; [reflexivity|].
  intros Hf. unfold answer_query. cbv zeta. rewrite Hf. reflexivity.
Qed.

Lemma unavailable_model_raises_witness :
  model_loaded engine_fresh = false /\
  search false enc_ab ins_argsort "jamming" 5 0 engine_fresh = (inl ImportError, engine_fresh) /\
  create_embeddings false enc_ab engine_fresh = (inl ImportError, engine_fresh) /\
  (find (fun kv => contains (fst kv) (lower "jamming")) tactic_keywords = None ->
   answer_query false enc_ab ins_argsort "jamming" engine_fresh = (inl ImportError, engine_fresh)).
Proof. split; [reflexivity|]. apply unavailable_model_raises. reflexivity. Defined.

(** [search] loads the index file when no embeddings are in memory but
    never the database. On an engine whose records are not loaded yet and
    whose model is loaded or loadable, with an index file holding vectors,
    it fails with ValueError when the vectors do not fit the query's
    dimension; otherwise it returns [[]] when no position survives the
    [top_k] cut and the [score >= min_score] test (for instance [top_k = 0],
    or no passing score among the first [top_k]) and fails on
    [self.database[idx]] ([TypeError]) as soon as one does. The records
    stay unloaded. *)
Theorem search_skips_database_load (available : bool) (encode : string -> string -> list R)
  (argsort_large : list npfloat -> list nat)
  (query : string) (top_k : Z) (min_score : R) (st : engine) (p : persisted)
  (embs : list (list R))
  (Hm : model_loaded st = true \/ available = true) (Hdb : database st = None)
  (He : embeddings st = None)
  (Hf : index_file st = Some p) (Hp : p_embeddings p = Some embs) :
  search available encode argsort_large query top_k min_score st
  = (if dims_ok embs (encode (model_name st) query) then
       match rank_indices argsort_large (similarities embs (encode (model_name st) query))
               top_k min_score with
       | [] => inr []
       | _ => inl TypeError
       end
     else inl ValueError,
     bump_calls (set_embeddings (Some embs) (set_model_loaded st))).
Proof.
  destruct st as [mn ml dbo eo fi df ec]; cbn in Hdb, He, Hf, Hm; subst.
  destruct ml, available; try (destruct Hm; discriminate);
    unfold search, load_model, load_embeddings, bind, get, ret, modify, raise; cbn;
    rewrite Hp; destruct (dims_ok _ _); cbn; try (destruct (rank_indices _ _ _ _));
    reflexivity.
Qed.

Lemma search_skips_database_load_witness :
  (model_loaded engine_stale = true \/ true = true) /\
  database engine_stale = None /\
  embeddings engine_stale = None /\
  index_file engine_stale = Some (mk_persisted (Some [[1]; [1]]) "all-MiniLM-L6-v2") /\
  p_embeddings (mk_persisted (Some [[1]; [1]]) "all-MiniLM-L6-v2") = Some [[1]; [1]] /\
  search true enc_one ins_argsort "jamming" 2 0 engine_stale
  = (if dims_ok [[1]; [1]] (enc_one (model_name engine_stale) "jamming") then
       match rank_indices ins_argsort
               (similarities [[1]; [1]] (enc_one (model_name engine_stale) "jamming")) 2 0 with
       | [] => inr []
       | _ => inl TypeError
       end
     else inl ValueError,
     bump_calls (set_embeddings (Some [[1]; [1]]) (set_model_loaded engine_stale))).
Proof.
  split; [right; reflexivity|]. split; [reflexivity|]. split; [reflexivity|].
  split; [reflexivity|]. split; [reflexivity|].
  apply search_skips_database_load with (p := mk_persisted (Some [[1]; [1]]) "all-MiniLM-L6-v2");
    [right | | | |]; reflexivity.
Defined.

Lemma ascii_lower_idem (c : ascii) : ascii_lower (ascii_lower c) = ascii_lower c.
Proof.
  destruct c as [b0 b1 b2 b3 b4 b5 b6 b7].
  destruct b0, b1, b2, b3, b4, b5, b6, b7; reflexivity.
Qed.

Lemma lower_idem (s : string) : lower (lower s) = lower s.
Proof. induction s as [|c s IH]; [reflexivity|]. cbn. rewrite ascii_lower_idem, IH. reflexivity. Qed.

(** [search_by_tactic] compares case-insensitively: an argument and its
    lowercase form give the same records; the empty name, contained in
    every tactic name, selects the whole store. *)
Theorem search_by_tactic_case (tac : string) (st : engine) :
  search_by_tactic (lower tac) st = search_by_tactic tac st /\
  search_by_tactic "" st = (inr (current_store st), with_store st).
Proof.
  split.
  - rewrite !search_by_tactic_run, lower_idem. reflexivity.
  - rewrite search_by_tactic_run. f_equal. f_equal.
    apply KeywordEdgeProofs.filter_all_true. intros e.
    apply KeywordEdgeProofs.contains_empty.
Qed.

(** The two halves of [search]: the lazy loading prologue and the ranking
    that follows it. *)
Definition search_prologue (available : bool) (encode : string -> string -> list R) : M unit :=
  st <- get ;;
  (if model_loaded st then ret tt else load_model available) ;;;
  st <- get ;;
  match embeddings st with
  | Some _ => ret tt
  | None => ok <- load_embeddings ;;
            if ok then ret tt else (create_embeddings available encode ;;; save_embeddings)
  end.

Definition search_tail (encode : string -> string -> list R)
  (argsort_large : list npfloat -> list nat) (query : string) (top_k : Z)
  (min_score : R) (st : engine) : (exc + list (entry * npfloat)) * engine :=
  (let query_embedding := encode (model_name st) query in
   modify bump_calls ;;;
   match embeddings st with
   | None => raise TypeError
   | Some embs =>
       if negb (dims_ok embs query_embedding) then raise ValueError else
       let sims := similarities embs query_embedding in
       let idxs := rank_indices argsort_large sims top_k min_score in
       match database st with
       | None => match idxs with [] => ret [] | _ => raise TypeError end
       | Some db =>
           match lookup_all db sims idxs with
           | Some rs => ret rs
           | None => raise IndexError
           end
       end
   end) st.

Lemma search_split (available : bool) (encode : string -> string -> list R)
  (argsort_large : list npfloat -> list nat) (query : string)
  (top_k : Z) (min_score : R) (st : engine) :
  search available encode argsort_large query top_k min_score st
  = match search_prologue available encode st with
    | (inl e, s) => (inl e, s)
    | (inr _, s) => search_tail encode argsort_large query top_k min_score s
    end.
Proof.
  unfold search, search_prologue, search_tail, bind, get.
  destruct ((if model_loaded st then ret tt else load_model available) st)
    as [[e|[]] s1]; [reflexivity|].
  destruct ((match embeddings s1 with
             | Some _ => ret tt
             | None => ok <- load_embeddings ;;
                       if ok then ret tt else (create_embeddings available encode ;;; save_embeddings)
             end) s1) as [[e|[]] s2]; reflexivity.
Qed.

Lemma search_prologue_model_name (available : bool) (encode : string -> string -> list R)
  (st : engine) :
  model_name (snd (search_prologue available encode st)) = model_name st.
Proof.
  destruct st as [mn ml dbo eo fi df ec].
  unfold search_prologue, load_model, load_embeddings, create_embeddings, save_embeddings,
    load_database, bind, get, ret, modify, raise.
  destruct ml, available, eo, fi, dbo as [d|]; try (destruct d); destruct df; reflexivity.
Qed.

Lemma lookup_all_spec (db : list entry) (sims : list npfloat) (idxs : list nat)
  (rs : list (entry * npfloat)) :
  lookup_all db sims idxs = Some rs ->
  List.length rs = List.length idxs /\
  Forall (fun r => exists i, In i idxs /\ nth_error db i = Some (fst r) /\
                             snd r = nth i sims NaN) rs.
Proof.
  revert rs. induction idxs as [|i idxs IH]; intros rs H; cbn in H.
  - injection H as <-. split; [reflexivity | constructor].
  - destruct (nth_error db i) as [e|] eqn:Hi; [|discriminate].
    destruct (lookup_all db sims idxs) as [rs'|]; [|discriminate].
    injection H as <-. destruct (IH rs' eq_refl) as [Hl Hf].
    split; [cbn; rewrite Hl; reflexivity|].
    constructor.
    + exists i. split; [left; reflexivity|]. split; [exact Hi | reflexivity].
    + eapply Forall_impl; [|exact Hf]. intros r [j [Hj Hr]]. exists j.
      split; [right; exact Hj | exact Hr].
Qed.

Lemma lookup_all_some (db : list entry) (sims : list npfloat) (idxs : list nat) :
  (forall i, In i idxs -> (i < List.length db)%nat) ->
  exists rs, lookup_all db sims idxs = Some rs.
Proof.
  induction idxs as [|i idxs IH]; intros H; [exists []; reflexivity|].
  cbn. destruct (nth_error db i) as [e|] eqn:Hi.
  - destruct IH as [rs Hrs]; [intros j Hj; apply H; right; exact Hj|].
    rewrite Hrs. eexists. reflexivity.
  - apply nth_error_None in Hi. specialize (H i (or_introl eq_refl)). lia.
Qed.

Lemma in_take {A} (k : Z) (l : list A) (x : A) : In x (take k l) -> In x l.
Proof. unfold take. destruct (Z.leb 0 k); apply KeywordEdgeProofs.in_firstn. Qed.

(** A kept position has a score that passes [>= min_score], so it is not
    the nan that [nth] gives past the end: it is a position of the scores,
    whatever order [np.argsort] produced. *)
Lemma rank_indices_bound (argsort_large : list npfloat -> list nat) (sims : list npfloat)
  (top_k : Z) (min_score : R) (i : nat) :
  In i (rank_indices argsort_large sims top_k min_score) -> (i < List.length sims)%nat /\
  fl_geb (nth i sims NaN) min_score = true.
Proof.
  intros Hi. unfold rank_indices in Hi. apply filter_In in Hi as [_ Hge].
  split; [|exact Hge].
  destruct (Nat.lt_ge_cases i (List.length sims)) as [H|H]; [exact H|].
  rewrite nth_overflow in Hge by exact H. discriminate.
Qed.

Lemma rank_indices_length (argsort_large : list npfloat -> list nat) (sims : list npfloat)
  (top_k : Z) (min_score : R) :
  (0 <= top_k)%Z ->
  (List.length (rank_indices argsort_large sims top_k min_score) <= Z.to_nat top_k)%nat.
Proof.
  intros Htop. unfold rank_indices, top_indices, take.
  destruct (Z.leb_spec 0 top_k); [|lia].
  eapply Nat.le_trans; [apply filter_length_le|]. rewrite length_firstn. lia.
Qed.

Lemma search_tail_ok (encode : string -> string -> list R)
  (argsort_large : list npfloat -> list nat) (query : string) (top_k : Z)
  (min_score : R) (st st' : engine) (rs : list (entry * npfloat)) :
  search_tail encode argsort_large query top_k min_score st = (inr rs, st') ->
  st' = bump_calls st /\
  ((0 <= top_k)%Z -> (List.length rs <= Z.to_nat top_k)%nat) /\
  Forall (fun r => fl_geb (snd r) min_score = true /\
             exists embs db i row, embeddings st = Some embs /\ database st = Some db /\
               nth_error db i = Some (fst r) /\ nth_error embs i = Some row /\
               snd r = cosine row (encode (model_name st) query)) rs.
Proof.
  unfold search_tail, bind, modify, ret, raise. cbv zeta.
  destruct (embeddings st) as [embs|] eqn:He; [|discriminate].
  destruct (dims_ok embs (encode (model_name st) query)); cbn [negb]; [|discriminate].
  set (sims := similarities embs (encode (model_name st) query)).
  destruct (database st) as [db|] eqn:Hd.
  - destruct (lookup_all db sims (rank_indices argsort_large sims top_k min_score))
      as [rs0|] eqn:Hl;
      [|discriminate].
    intros H. injection H as <- <-. split; [reflexivity|].
    destruct (lookup_all_spec _ _ _ _ Hl) as [Hlen Hall].
    split; [intros Htop; rewrite Hlen; apply rank_indices_length; exact Htop|].
    eapply Forall_impl; [|exact Hall]. intros r [i [Hi [Hdb Hs]]].
    destruct (rank_indices_bound _ _ _ _ _ Hi) as [Hb Hge].
    unfold sims, similarities in Hb. rewrite length_map in Hb.
    split; [rewrite Hs; exact Hge|].
    exists embs, db, i, (nth i embs []).
    split; [reflexivity|]. split; [reflexivity|]. split; [exact Hdb|].
    split; [apply nth_error_nth'; exact Hb|].
    rewrite Hs. unfold sims, similarities.
    rewrite (nth_indep _ NaN (cosine [] (encode (model_name st) query)))
      by (rewrite length_map; exact Hb).
    apply (map_nth (fun row => cosine row (encode (model_name st) query))).
  - destruct (rank_indices argsort_large sims top_k min_score) eqn:Hr; [|discriminate].
    intros H. injection H as <- <-. split; [reflexivity|].
    split; [intros _; cbn; lia | constructor].
Qed.

Lemma search_success (available : bool) (encode : string -> string -> list R)
  (argsort_large : list npfloat -> list nat) (query : string)
  (top_k : Z) (min_score : R) (st : engine) (rs : list (entry * npfloat)) :
  fst (search available encode argsort_large query top_k min_score st) = inr rs ->
  ((0 <= top_k)%Z -> (List.length rs <= Z.to_nat top_k)%nat) /\
  Forall (fun r => fl_geb (snd r) min_score = true /\
    exists embs db i row,
      embeddings (snd (search available encode argsort_large query top_k min_score st)) = Some embs /\
      database (snd (search available encode argsort_large query top_k min_score st)) = Some db /\
      nth_error db i = Some (fst r) /\ nth_error embs i = Some row /\
      snd r = cosine row (encode (model_name st) query)) rs.
Proof.
  rewrite search_split. pose proof (search_prologue_model_name available encode st) as Hmn.
  destruct (search_prologue available encode st) as [[e|[]] s] eqn:Hp; [discriminate|].
  cbn [snd] in Hmn.
  destruct (search_tail encode argsort_large query top_k min_score s) as [r s'] eqn:Ht.
  cbn [fst snd]. intros Hr. subst r.
  destruct (search_tail_ok _ _ _ _ _ _ _ _ Ht) as [-> [Hlen Hall]].
  split; [exact Hlen|].
  eapply Forall_impl; [|exact Hall]. intros r [Hge Hx]. split; [exact Hge|].
  rewrite <- Hmn. exact Hx.
Qed.

(** A successful [search] returns at most [top_k] results (for [top_k >=
    0]), each with a score that passes [score >= min_score] (so never
    nan), and each pairs the record at some position of the engine's
    records with the cosine between the embedding stored at the same
    position and the query's embedding under the engine's model. *)
Theorem search_results_sound (available : bool) (encode : string -> string -> list R)
  (argsort_large : list npfloat -> list nat)
  (query : string) (top_k : Z) (min_score : R) (st : engine) (rs : list (entry * npfloat))
  (Hrun : fst (search available encode argsort_large query top_k min_score st) = inr rs) :
  ((0 <= top_k)%Z -> (List.length rs <= Z.to_nat top_k)%nat) /\
  Forall (fun r => fl_geb (snd r) min_score = true /\
    exists embs db i row,
      embeddings (snd (search available encode argsort_large query top_k min_score st)) = Some embs /\
      database (snd (search available encode argsort_large query top_k min_score st)) = Some db /\
      nth_error db i = Some (fst r) /\ nth_error embs i = Some row /\
      snd r = cosine row (encode (model_name st) query)) rs.
Proof. apply search_success. exact Hrun. Qed.

Lemma search_results_sound_witness :
  fst (search true enc_one ins_argsort "spacecraft design" 2 0 engine_fresh)
  = inr [(rec_b, Fin 1); (rec_a, Fin 1)] /\
  ((0 <= 2)%Z -> (List.length [(rec_b, Fin 1); (rec_a, Fin 1)] <= Z.to_nat 2)%nat) /\
  Forall (fun r => fl_geb (snd r) 0 = true /\
    exists embs db i row,
      embeddings (snd (search true enc_one ins_argsort "spacecraft design" 2 0 engine_fresh)) = Some embs /\
      database (snd (search true enc_one ins_argsort "spacecraft design" 2 0 engine_fresh)) = Some db /\
      nth_error db i = Some (fst r) /\ nth_error embs i = Some row /\
      snd r = cosine row (enc_one (model_name engine_fresh) "spacecraft design"))
    [(rec_b, Fin 1); (rec_a, Fin 1)].
Proof.
  assert (H : fst (search true enc_one ins_argsort "spacecraft design" 2 0 engine_fresh)
              = inr [(rec_b, Fin 1); (rec_a, Fin 1)]).
  { cbv [bind search get ret modify raise load_model load_embeddings create_embeddings
         save_embeddings load_database].
    cbn. unfold enc_one. rewrite cosine_one_one. do 3 (simpl; decide_R).
    reflexivity. }
  split; [exact H|]. apply search_results_sound. exact H.
Defined.

(** For [top_k >= 0], a successful [get_related_techniques] returns at
    most [top_k] results: [search] is asked for [top_k + 1] and the first
    is dropped. *)
Theorem related_length (available : bool) (encode : string -> string -> list R)
  (argsort_large : list npfloat -> list nat)
  (technique_id : string) (top_k : Z) (st : engine) (rs : list (entry * npfloat))
  (Htop : (0 <= top_k)%Z)
  (Hrun : fst (get_related_techniques available encode argsort_large technique_id top_k st) = inr rs) :
  (List.length rs <= Z.to_nat top_k)%nat.
Proof.
  unfold get_related_techniques in Hrun. rewrite store_prologue in Hrun.
  destruct (find _ _) as [found|]; [|injection Hrun as <-; cbn; lia].
  unfold bind, ret in Hrun.
  destruct (search available encode argsort_large (description found) (top_k + 1) 0 (with_store st))
    as [[e|r] s] eqn:Hs; [discriminate|].
  injection Hrun as <-.
  destruct (search_success available encode argsort_large (description found) (top_k + 1) 0 (with_store st) r)
    as [Hlen _]; [rewrite Hs; reflexivity|].
  specialize (Hlen ltac:(lia)). unfold drop1. destruct r as [|x r]; cbn in *; lia.
Qed.

Lemma related_length_witness :
  (0 <= 1)%Z /\
  fst (get_related_techniques true enc_ab ins_argsort "REC-0001" 1 engine_fresh) = inr [(rec_a, Fin 0)] /\
  (List.length [(rec_a, Fin 0)] <= Z.to_nat 1)%nat.
Proof.
  assert (H : fst (get_related_techniques true enc_ab ins_argsort "REC-0001" 1 engine_fresh)
              = inr [(rec_a, Fin 0)]).
  { unfold get_related_techniques. rewrite store_prologue. cbn.
    cbv [bind search get ret modify raise load_model load_embeddings create_embeddings
         save_embeddings load_database].
    cbn. rewrite cosine_e2_e1, cosine_e1_e1. do 3 (simpl; decide_R).
    reflexivity. }
  split; [lia|]. split; [exact H|].
  apply (related_length true enc_ab ins_argsort "REC-0001" 1 engine_fresh); [lia | exact H].
Defined.

(** The setup sequence of [setup_and_test] and [interactive_mode], run
    with sentence-transformers installed, no index file yet and a
    non-empty record file, loads the records and the model, embeds every
    record once, in store order, and saves the vectors with the model
    name; with a model whose vectors all have one length, a [search] that
    follows cannot fail, since there is one vector per record and each has
    the query's length. *)
Theorem setup_then_search (encode : string -> string -> list R)
  (argsort_large : list npfloat -> list nat) (query : string) (top_k : Z)
  (min_score : R) (st : engine) (Hidx : index_file st = None) (Hne : db_file st <> [])
  (Hdim : forall t1 t2 : string,
     List.length (encode (model_name st) t1) = List.length (encode (model_name st) t2)) :
  Setup.setup_engine true encode st
  = (inr tt,
     mk_engine (model_name st) true (Some (db_file st))
       (Some (map (encode (model_name st)) (map rich_text (db_file st))))
       (Some (mk_persisted (Some (map (encode (model_name st)) (map rich_text (db_file st))))
                (model_name st)))
       (db_file st) (S (encode_calls st))) /\
  exists rs,
    search true encode argsort_large query top_k min_score
      (mk_engine (model_name st) true (Some (db_file st))
         (Some (map (encode (model_name st)) (map rich_text (db_file st))))
         (Some (mk_persisted (Some (map (encode (model_name st)) (map rich_text (db_file st))))
                  (model_name st)))
         (db_file st) (S (encode_calls st)))
    = (inr rs,
       bump_calls
         (mk_engine (model_name st) true (Some (db_file st))
            (Some (map (encode (model_name st)) (map rich_text (db_file st))))
            (Some (mk_persisted (Some (map (encode (model_name st)) (map rich_text (db_file st))))
                     (model_name st)))
            (db_file st) (S (encode_calls st)))).
Proof.
  destruct st as [mn ml dbo eo fi df ec]; cbn in Hidx, Hne, Hdim; subst fi.
  cbn [model_name db_file encode_calls].
  split; [destruct df; [congruence | reflexivity]|].
  rewrite (search_loaded true encode argsort_large query top_k min_score _
             (map (encode mn) (map rich_text df)) df) by reflexivity.
  cbn [model_name].
  assert (Hd : dims_ok (map (encode mn) (map rich_text df)) (encode mn query) = true).
  { destruct df as [|e df']; [congruence|]. unfold dims_ok. cbn [map].
    apply forallb_forall. intros row Hrow. apply Nat.eqb_eq.
    change (encode mn (rich_text e) :: map (encode mn) (map rich_text df'))
      with (map (encode mn) (map rich_text (e :: df'))) in Hrow.
    apply in_map_iff in Hrow as [t [<- _]]. apply Hdim. }
  rewrite Hd.
  destruct (lookup_all_some df
              (similarities (map (encode mn) (map rich_text df)) (encode mn query))
              (rank_indices argsort_large
                 (similarities (map (encode mn) (map rich_text df)) (encode mn query))
                 top_k min_score)) as [rs Hrs].
  { intros i Hi. apply rank_indices_bound in Hi as [Hi _].
    unfold similarities in Hi. rewrite !length_map in Hi. exact Hi. }
  rewrite Hrs. exists rs. reflexivity.
Qed.

Lemma setup_then_search_witness :
  index_file engine_fresh = None /\
  db_file engine_fresh <> [] /\
  (forall t1 t2 : string,
     List.length (enc_ab (model_name engine_fresh) t1)
     = List.length (enc_ab (model_name engine_fresh) t2)) /\
  Setup.setup_engine true enc_ab engine_fresh
  = (inr tt,
     mk_engine (model_name engine_fresh) true (Some (db_file engine_fresh))
       (Some (map (enc_ab (model_name engine_fresh)) (map rich_text (db_file engine_fresh))))
       (Some (mk_persisted
                (Some (map (enc_ab (model_name engine_fresh)) (map rich_text (db_file engine_fresh))))
                (model_name engine_fresh)))
       (db_file engine_fresh) (S (encode_calls engine_fresh))) /\
  exists rs,
    search true enc_ab ins_argsort "jamming" 5 0
      (mk_engine (model_name engine_fresh) true (Some (db_file engine_fresh))
         (Some (map (enc_ab (model_name engine_fresh)) (map rich_text (db_file engine_fresh))))
         (Some (mk_persisted
                  (Some (map (enc_ab (model_name engine_fresh))
                           (map rich_text (db_file engine_fresh))))
                  (model_name engine_fresh)))
         (db_file engine_fresh) (S (encode_calls engine_fresh)))
    = (inr rs,
       bump_calls
         (mk_engine (model_name engine_fresh) true (Some (db_file engine_fresh))
            (Some (map (enc_ab (model_name engine_fresh)) (map rich_text (db_file engine_fresh))))
            (Some (mk_persisted
                     (Some (map (enc_ab (model_name engine_fresh))
                              (map rich_text (db_file engine_fresh))))
                     (model_name engine_fresh)))
            (db_file engine_fresh) (S (encode_calls engine_fresh)))).
Proof.
  assert (Hdim : forall t1 t2 : string,
     List.length (enc_ab (model_name engine_fresh) t1)
     = List.length (enc_ab (model_name engine_fresh) t2)).
  { intros t1 t2. unfold enc_ab.
    destruct (_ || _); destruct (_ || _); reflexivity. }
  split; [reflexivity|]. split; [discriminate|]. split; [exact Hdim|].
  apply setup_then_search; [reflexivity | discriminate | exact Hdim].
Defined.

End EngineStateProofs.
